(** * vue-template-diagnostic: the type model, the TypeScript adapter and the
    expression checker.

    The first half embeds [type-script.ts] (classes [TypeScriptType] and
    [TypeScriptTypeRepository]) and the stub repository of the test suite.
    The second half models the checker engine, whose source file is not part
    of the sources at hand, from the written specification and from the
    expectations of [checker.spec.ts]. *)

From stdpp Require Import base numbers option list strings gmap.

Local Open Scope string_scope.
Local Open Scope list_scope.
Local Open Scope Z_scope.

(** ** TypeKind *)
Module TypeKind.

(** Modelled from the spec: the enumeration [TypeKind], whose declaration
    in [type.ts] is not among the sources; section 3 gives its members,
    and they are the ones the adapter, the stub and the checker tests
    name. *)
Inductive t : Set :=
| Any | Boolean | String | Number | Symbol
| Undefined | Null | Object | Function | Other.

Definition to_nat (k : t) : nat :=
  match k with
  | Any => 0 | Boolean => 1 | String => 2 | Number => 3 | Symbol => 4
  | Undefined => 5 | Null => 6 | Object => 7 | Function => 8 | Other => 9
  end%nat.

Definition of_nat (n : nat) : t :=
  match n with
  | 0 => Any | 1 => Boolean | 2 => String | 3 => Number | 4 => Symbol
  | 5 => Undefined | 6 => Null | 7 => Object | 8 => Function | _ => Other
  end%nat.

#[global] Instance eq_dec : EqDecision t.
Proof. solve_decision. Defined.

#[global] Instance countable : Countable t :=
  inj_countable' to_nat of_nat
    (fun k => match k with
              | Any | Boolean | String | Number | Symbol
              | Undefined | Null | Object | Function | Other => eq_refl
              end).

End TypeKind.

(** ** JavaScript's 32-bit bit operators *)

(** [ToInt32] of an integral number: wrap into [-2^31, 2^31). *)
Definition ToInt32 (x : Z) : Z := (x + 2 ^ 31) `mod` 2 ^ 32 - 2 ^ 31.

(** [a & b] and [a | b]. *)
Definition band (a b : Z) : Z := Z.land (ToInt32 a) (ToInt32 b).
Definition bor (a b : Z) : Z := Z.lor (ToInt32 a) (ToInt32 b).

(** A number used as a condition is truthy when it is not zero. *)
Definition truthy (x : Z) : bool := negb (x =? 0).

Infix ".&" := band (at level 40, left associativity).
Infix ".|" := bor (at level 45, left associativity).

(** ** The host's type flags

    [ts.TypeFlags] belongs to the TypeScript compiler, not to this
    repository; the bit values are taken as a parameter. *)
Module TypeFlags.

Record t : Set := Build {
  Any : Z;
  String : Z;
  Number : Z;
  Boolean : Z;
  StringLiteral : Z;
  BooleanLiteral : Z;
  ESSymbol : Z;
  Undefined : Z;
  Null : Z;
  StringLike : Z;
  NumberLike : Z;
  BooleanLike : Z
}.

(** Sample values for the examples; they follow the enumeration of the
    TypeScript 2.4 compiler, where the Object flag is 32768. *)
Definition ts2 : t := {|
  Any := 1;
  String := 2;
  Number := 4;
  Boolean := 8;
  StringLiteral := 32;
  BooleanLiteral := 128;
  ESSymbol := 512;
  Undefined := 2048;
  Null := 4096;
  StringLike := 262178;
  NumberLike := 84;
  BooleanLike := 136
|}.

End TypeFlags.

(** ** TypeScriptType.kind *)
Section Kind.

Variable tf : TypeFlags.t.

Definition booleanMask : Z :=
  TypeFlags.Boolean tf .| TypeFlags.BooleanLike tf .| TypeFlags.BooleanLiteral tf.
Definition stringMask : Z :=
  TypeFlags.String tf .| TypeFlags.StringLike tf .| TypeFlags.StringLiteral tf.
Definition numberMask : Z :=
  TypeFlags.Number tf .| TypeFlags.NumberLike tf.

(** [get kind()] on [this.tsType.flags]. *)
Definition kind (flags : Z) : TypeKind.t :=
  if truthy (flags .& TypeFlags.Any tf) then TypeKind.Any
  else if truthy (flags .& booleanMask) then TypeKind.Boolean
  else if truthy (flags .& stringMask) then TypeKind.String
  else if truthy (flags .& numberMask) then TypeKind.Number
  else if truthy (flags .& TypeFlags.ESSymbol tf) then TypeKind.Symbol
  else if truthy (flags .& TypeFlags.Undefined tf) then TypeKind.Undefined
  else if truthy (flags .& TypeFlags.Null tf) then TypeKind.Null
  else TypeKind.Other.

(** The precedence order as the specification words it: Any, boolean-like,
    string-like, number-like, Symbol, Undefined, Null. *)
Definition precedence : list (Z * TypeKind.t) :=
  [ (TypeFlags.Any tf, TypeKind.Any);
    (booleanMask, TypeKind.Boolean);
    (stringMask, TypeKind.String);
    (numberMask, TypeKind.Number);
    (TypeFlags.ESSymbol tf, TypeKind.Symbol);
    (TypeFlags.Undefined tf, TypeKind.Undefined);
    (TypeFlags.Null tf, TypeKind.Null) ].

(** The kind of the first test of [tests] that [flags] passes, [Other] when
    it passes none. *)
Fixpoint firstMatch (tests : list (Z * TypeKind.t)) (flags : Z) : TypeKind.t :=
  match tests with
  | [] => TypeKind.Other
  | (mask, k) :: rest =>
      if truthy (flags .& mask) then k else firstMatch rest flags
  end.

Definition fails (flags : Z) (test : Z * TypeKind.t) : Prop :=
  truthy (flags .& test.1) = false.

End Kind.

(** ** Exceptions and the state-and-exception monad

    A JavaScript call either returns a value or throws; in both cases the
    effects it had on the objects it touched stay. *)
Inductive Message : Set :=
| CannotSpecifyOther                    (* 'Cannot specify a type from TypeKind.Other' *)
| NotFound (kind : TypeKind.t)          (* `A type of the type kind ${kind} is not found` *)
| UnexpectedTypeKind (kind : TypeKind.t) (* `Unexpected type kind ${kind}` *)
| UnknownTypeKind (kind : TypeKind.t).  (* `Unknown type kind ${kind}`, the stub *)

Inductive Exception : Set :=
| AssertionError (message : Message)    (* a failed [assert] *)
| Error (message : Message)             (* [throw new Error(...)] *)
| TypeError                             (* a member read on [undefined] *)
| DanglingReference.                    (* no JavaScript counterpart: a
                                           reference outside the heap *)

Inductive Outcome (A : Type) : Type :=
| Return (value : A)
| Throw (exception : Exception).
Arguments Return {A} value.
Arguments Throw {A} exception.

Definition M (S A : Type) : Type := S -> Outcome A * S.

Definition ret {S A} (a : A) : M S A := fun s => (Return a, s).
Definition throw {S A} (e : Exception) : M S A := fun s => (Throw e, s).
Definition bind {S A B} (c : M S A) (k : A -> M S B) : M S B :=
  fun s =>
    match c s with
    | (Return a, s') => k a s'
    | (Throw e, s') => (Throw e, s')
    end.
Definition get {S} : M S S := fun s => (Return s, s).
Definition modify {S} (f : S -> S) : M S unit := fun s => (Return tt, f s).

Declare Scope js_scope.
Delimit Scope js_scope with js.
Notation "x <- c ;; k" := (bind c (fun x => k))
  (at level 100, c at next level, right associativity) : js_scope.
Notation "c ;;; k" := (bind c (fun _ => k))
  (at level 100, right associativity) : js_scope.

(** [xs.map(f)] with an effectful callback, left to right. *)
Fixpoint mapM {S A B} (f : A -> M S B) (xs : list A) : M S (list B) :=
  match xs with
  | [] => ret []
  | x :: xs' => (y <- f x ;; ys <- mapM f xs' ;; ret (y :: ys))%js
  end.

(** ** The host type-checking context

    The host's types, symbols, signatures and syntax nodes ([ts.Type],
    [ts.Symbol], [ts.Signature], [ts.Node]) are opaque handles. *)
Definition HostType : Set := nat.
Definition HostSymbol : Set := nat.
Definition HostSignature : Set := nat.
Definition HostNode : Set := nat.

(** The syntax tree of the fixture as [search] sees it: a node is a variable
    declaration, with the text of its type annotation when it has one, or
    anything else; both have children. *)
#[warnings="-register-all"]
Inductive Node : Set :=
| VariableDeclaration (id : HostNode) (type : option string) (children : list Node)
| OtherNode (id : HostNode) (children : list Node).

Record TypeScriptContext : Set := {
  ts : TypeFlags.t;
  flags : HostType -> Z;
  getProperties : HostType -> list HostSymbol;
  getCallSignatures : HostType -> list HostSignature;
  getParameters : HostSignature -> list HostSymbol;
  getReturnType : HostSignature -> HostType;
  getTypeOfSymbolAtLocation : HostSymbol -> HostNode -> HostType;
  (** [ts.createProgram([origin], ...)]: the children of the fixture's source
      file and the fixture program's [getTypeAtLocation]. *)
  fixture : list Node;
  getTypeAtLocation : HostNode -> HostType
}.

(** ** Objects

    Objects the adapter creates have an identity, a reference drawn from the
    allocation counter of the world. [TypeScriptType] instances carry the two
    memo fields and live in the heap; symbol tables and signature arrays are
    never written after their creation and are kept as values tagged with
    their reference. *)
Abbreviation ref := nat (only parsing).

Record TypeScriptSymbol : Set := {
  tsSymbol : HostSymbol;
  symbolNode : HostNode
}.

(** Modelled from the spec: [SimpleSymbolTable] of [symbol.ts], a table made
    from an ordered sequence of symbols (section 4.3). *)
Record SimpleSymbolTable : Set := {
  tableRef : ref;
  symbols : list TypeScriptSymbol
}.

(** Modelled from the spec: the three singletons [anyType], [nullType] and
    [undefinedType] that [type.ts] exports (section 3: fixed, available
    without any host resolution). A value of interface [Type] is one of them
    or a [TypeScriptType] instance. *)
Inductive Type_ : Set :=
| anyType
| nullType
| undefinedType
| Instance (r : ref).

Record CallSignature : Set := {
  argTypes : list Type_;       (* new SimpleTypeArguments(args) *)
  returnType : Type_
}.

Record SignatureArray : Set := {
  arrayRef : ref;
  items : list CallSignature
}.

Record TypeScriptType : Set := {
  tsType : HostType;
  node : HostNode;
  _members : option SimpleSymbolTable;
  _callSignatures : option SignatureArray
}.

Record World : Type := {
  heap : gmap ref TypeScriptType;
  nextRef : ref;
  (** how many times the fixture program was created *)
  compiles : nat
}.


(** ** class TypeScriptType *)
Section TypeScriptType.

Variable context : TypeScriptContext.

Definition setHeap (h : gmap ref TypeScriptType) (w : World) : World :=
  {| heap := h; nextRef := nextRef w; compiles := compiles w |}.

(** A fresh reference. *)
Definition fresh : M World ref :=
  fun w => (Return (nextRef w),
            {| heap := heap w; nextRef := S (nextRef w); compiles := compiles w |}).

(** [new TypeScriptType(tsType, node, context)]: both memo fields start
    out falsy. *)
Definition newTypeScriptType (type : HostType) (n : HostNode) : M World Type_ :=
  (r <- fresh ;;
   modify (fun w =>
     setHeap (<[r := {| tsType := type; node := n;
                        _members := None; _callSignatures := None |}]> (heap w)) w) ;;;
   ret (Instance r))%js.

(** [get type()] of a [TypeScriptSymbol]: a new instance at every read. *)
Definition TypeScriptSymbol_type (sym : TypeScriptSymbol) : M World Type_ :=
  newTypeScriptType
    (getTypeOfSymbolAtLocation context (tsSymbol sym) (symbolNode sym))
    (symbolNode sym).

(** Reading [this]. *)
Definition deref (this : ref) : M World TypeScriptType :=
  fun w => match heap w !! this with
           | Some o => (Return o, w)
           | None => (Throw DanglingReference, w)
           end.

(** [this._members = st] and [this._callSignatures = a]. *)
Definition set_members (this : ref) (st : SimpleSymbolTable) : M World unit :=
  modify (fun w =>
    setHeap (alter (fun o => {| tsType := tsType o; node := node o;
                                _members := Some st;
                                _callSignatures := _callSignatures o |})
                   this (heap w)) w).

Definition set_callSignatures (this : ref) (a : SignatureArray) : M World unit :=
  modify (fun w =>
    setHeap (alter (fun o => {| tsType := tsType o; node := node o;
                                _members := _members o;
                                _callSignatures := Some a |})
                   this (heap w)) w).

(** [get kind()] of an instance. *)
Definition TypeScriptType_kind (o : TypeScriptType) : TypeKind.t :=
  kind (ts context) (flags context (tsType o)).

(** [get members()]. A symbol table object is always truthy, so the test
    [!this._members] holds exactly when the field was never assigned. *)
Definition members (this : ref) : M World SimpleSymbolTable :=
  (o <- deref this ;;
   match _members o with
   | Some st => ret st
   | None =>
       let symbols :=
         map (fun s => {| tsSymbol := s; symbolNode := node o |})
             (getProperties context (tsType o)) in
       r <- fresh ;;
       let st := {| tableRef := r; symbols := symbols |} in
       set_members this st ;;;
       ret st
   end)%js.

(** The callback of [signatures.map] in [get callSignatures()]. *)
Definition makeSignature (n : HostNode) (s : HostSignature) : M World CallSignature :=
  (args <- mapM (fun p =>
             newTypeScriptType (getTypeOfSymbolAtLocation context p n) n)
           (getParameters context s) ;;
   r <- newTypeScriptType (getReturnType context s) n ;;
   ret {| argTypes := args; returnType := r |})%js.

(** [get callSignatures()]. An array, even an empty one, is truthy. *)
Definition callSignatures (this : ref) : M World SignatureArray :=
  (o <- deref this ;;
   match _callSignatures o with
   | Some a => ret a
   | None =>
       sigs <- mapM (makeSignature (node o))
                    (getCallSignatures context (tsType o)) ;;
       r <- fresh ;;
       let a := {| arrayRef := r; items := sigs |} in
       set_callSignatures this a ;;;
       ret a
   end)%js.

End TypeScriptType.

(** ** class TypeScriptTypeRepository *)
Record TypeScriptTypeRepository : Type := {
  cached : bool;
  cache : gmap TypeKind.t Type_
}.

(** [new TypeScriptTypeRepository(context)]. *)
Definition newRepository : TypeScriptTypeRepository :=
  {| cached := false; cache := ∅ |}.

Section TypeScriptTypeRepository.

Variable context : TypeScriptContext.

(** The state the repository's methods run in: the instance and the world. *)
Definition State : Type := TypeScriptTypeRepository * World.

(** Running a computation on the world inside a method. *)
Definition liftWorld {A} (c : M World A) : M State A :=
  fun s => let '(o, w) := c s.2 in (o, (s.1, w)).

(** [this.cache.set(kind, type)]. *)
Definition cache_set (k : TypeKind.t) (type : Type_) : M State unit :=
  modify (fun s : State =>
    ({| cached := cached s.1; cache := <[k := type]> (cache s.1) |}, s.2)).

(** The body every case of the inner switch has:
    [this.cache.set(kind, new TypeScriptType(checker.getTypeAtLocation(prop), prop, this.context))]. *)
Definition populate (prop : HostNode) (k : TypeKind.t) : M State unit :=
  (type <- liftWorld (newTypeScriptType (getTypeAtLocation context prop) prop) ;;
   cache_set k type)%js.

(** The case labels of the inner switch, in the order of the source. *)
Definition cases : list (string * TypeKind.t) :=
  [ ("string", TypeKind.String);
    ("number", TypeKind.Number);
    ("boolean", TypeKind.Boolean);
    ("symbol", TypeKind.Symbol) ].

(** A [switch] none of whose cases ends in [break]: control enters at the
    first label equal to the scrutinee and runs the body of that case and
    of every case after it; with no equal label it enters at [default],
    which comes last and does nothing. The result lists the kinds whose
    bodies run, in order. *)
Fixpoint entered (text : string) (cs : list (string * TypeKind.t)) : list TypeKind.t :=
  match cs with
  | [] => []
  | (label, k) :: rest =>
      if String.eqb text label then k :: map snd rest else entered text rest
  end.

Fixpoint runBodies (prop : HostNode) (ks : list TypeKind.t) : M State unit :=
  match ks with
  | [] => ret tt
  | k :: ks' => (populate prop k ;;; runBodies prop ks')%js
  end.

(** [switch (prop.type!.getText(source)) { ... }] for the declaration
    [prop]; a declaration without a type annotation has [prop.type]
    undefined, and the call on it throws. *)
Definition dispatch (prop : HostNode) (type : option string) : M State unit :=
  match type with
  | None => throw TypeError
  | Some text => runBodies prop (entered text cases)
  end.

(** [search]: the outer switch has no [break] either, so a variable
    declaration is dispatched and then, like every other node, has its
    children searched. The callback returns nothing, so [ts.forEachChild]
    visits all the children. *)
Fixpoint search (n : Node) : M State unit :=
  let forEachChild :=
    fix forEachChild (children : list Node) : M State unit :=
      match children with
      | [] => ret tt
      | c :: children' => (search c ;;; forEachChild children')%js
      end in
  match n with
  | VariableDeclaration prop type children =>
      (dispatch prop type ;;; forEachChild children)%js
  | OtherNode _ children => forEachChild children
  end.

Fixpoint forEachChild (children : list Node) : M State unit :=
  match children with
  | [] => ret tt
  | c :: children' => (search c ;;; forEachChild children')%js
  end.

(** [ensureLoadBuiltInTypes]. *)
Definition ensureLoadBuiltInTypes : M State unit :=
  (s <- get ;;
   if cached s.1 then ret tt
   else
     modify (fun s : State =>
       ({| cached := true; cache := cache s.1 |},
        {| heap := heap s.2; nextRef := nextRef s.2;
           compiles := S (compiles s.2) |})) ;;;
     forEachChild (fixture context))%js.

(** [assert(res, ...)] on the result of [this.cache.get(kind)]. *)
Definition cache_get_assert (k : TypeKind.t) : M State Type_ :=
  (s <- get ;;
   match cache s.1 !! k with
   | Some res => ret res
   | None => throw (AssertionError (NotFound k))
   end)%js.

(** [getTypeByKind]. *)
Definition getTypeByKind (k : TypeKind.t) : M State Type_ :=
  if decide (k = TypeKind.Other) then throw (AssertionError CannotSpecifyOther)
  else if decide (k = TypeKind.Any) then ret anyType
  else if decide (k = TypeKind.Null) then ret nullType
  else if decide (k = TypeKind.Undefined) then ret undefinedType
  else
    (ensureLoadBuiltInTypes ;;;
     match k with
     | TypeKind.String => cache_get_assert TypeKind.String
     | TypeKind.Number => cache_get_assert TypeKind.Number
     | TypeKind.Boolean => cache_get_assert TypeKind.Boolean
     | TypeKind.Symbol => cache_get_assert TypeKind.Symbol
     | _ => throw (Error (UnexpectedTypeKind k))
     end)%js.

End TypeScriptTypeRepository.

(** ** The stub repository of the test suite ([test/stubs/type-repository.ts]) *)
Module Stub.

(** A plain [Type] object of the stub: its name and kind (its members are
    empty and it has no call signatures). *)
Inductive Type_ : Set :=
| number | string | boolean
| nullType | undefinedType | anyType.

Definition getTypeByKind (k : TypeKind.t) : Outcome Type_ :=
  match k with
  | TypeKind.Number => Return number
  | TypeKind.String => Return string
  | TypeKind.Boolean => Return boolean
  | TypeKind.Null => Return nullType
  | TypeKind.Undefined => Return undefinedType
  | TypeKind.Any => Return anyType
  | _ => Throw (Error (UnknownTypeKind k))
  end.

End Stub.

(** ** The checker engine *)
Module Checker.

(** Modelled from the spec: the [Type] of section 3, which [type.ts]
    declares, reduced to the two fields the operator rules and the messages
    read, the display name and the kind. *)
Record Type_ : Set := {
  name : string;
  kind : TypeKind.t
}.

(** The built-in types, named and classified as in
    [test/stubs/type-repository.ts]. *)
Module BuiltIn.
Definition number : Type_ := {| name := "number"; kind := TypeKind.Number |}.
Definition string : Type_ := {| name := "string"; kind := TypeKind.String |}.
Definition boolean : Type_ := {| name := "boolean"; kind := TypeKind.Boolean |}.
End BuiltIn.

(** Modelled from the spec: the singleton of kind [Any] that [type.ts]
    exports; no message of the operator rules prints its name. *)
Definition anyType : Type_ := {| name := "any"; kind := TypeKind.Any |}.

(** Modelled from the spec: [Symbol] and [SymbolTable] of [symbol.ts]
    (sections 3 and 4.3): an ordered collection looked up by name, the
    last binding of a name winning, and an absent signal when there is
    none. *)
Record Symbol : Set := {
  symbolName : string;
  type : Type_
}.

Definition SymbolTable : Set := list Symbol.

(** Modelled from the spec: lookup by name, the last binding winning. *)
Fixpoint lookup (scope : SymbolTable) (n : string) : option Symbol :=
  match scope with
  | [] => None
  | s :: rest =>
      match lookup rest n with
      | Some s' => Some s'
      | None => if String.eqb (symbolName s) n then Some s else None
      end
  end.

(** Modelled from the spec: [Diagnostic] of section 6, with half-open
    character offsets. *)
Record Diagnostic : Set := {
  message : string;
  start : Z;
  end_ : Z
}.

(** Modelled from the spec: the binary operators of the rule table of
    section 4.4. The equality forms are [===], [!==], [==] and [!=]. *)
Inductive BinaryOperator : Set :=
| Mul | Div | Sub
| Add
| StrictEqual | StrictNotEqual | Equal | NotEqual
| InstanceOf
| In.

(** The operator as the messages print it. *)
Definition operatorText (op : BinaryOperator) : string :=
  match op with
  | Mul => "*" | Div => "/" | Sub => "-" | Add => "+"
  | StrictEqual => "===" | StrictNotEqual => "!==" | Equal => "==" | NotEqual => "!="
  | InstanceOf => "instanceof" | In => "in"
  end.

(** Modelled from the spec: the expression tree the parser hands over
    (section 6). Every node carries its source range. A literal carries
    the type the checker gives it, as the specification names no rule for
    the types of literals. *)
Inductive Expression : Set :=
| Identifier (n : string) (s e : Z)
| Literal (t : Type_) (s e : Z)
| BinaryExpression (op : BinaryOperator) (left right : Expression) (s e : Z).

(** The source range of a node. *)
Definition range (x : Expression) : Z * Z :=
  match x with
  | Identifier _ s e | Literal _ s e | BinaryExpression _ _ _ s e => (s, e)
  end.

(** A diagnostic on the range of [x]. *)
Definition at_ (x : Expression) (m : string) : Diagnostic :=
  {| message := m; start := (range x).1; end_ := (range x).2 |}.

(** The messages, as [checker.spec.ts] expects them. *)
Definition notDefined (n : string) : string :=
  "'" +:+ n +:+ "' is not defined".
Definition arithmeticLeft (op : BinaryOperator) : string :=
  "The left-hand side of a binary operator '" +:+ operatorText op
    +:+ "' must be of type 'number' or 'any'".
Definition arithmeticRight (op : BinaryOperator) : string :=
  "The right-hand side of a binary operator '" +:+ operatorText op
    +:+ "' must be of type 'number' or 'any'".
Definition cannotApplyPlus (l r : Type_) : string :=
  "The binary operator '+' cannot be applied to type '" +:+ name l
    +:+ "' and '" +:+ name r +:+ "'".
Definition instanceofLeft : string :=
  "The left-hand side of 'instanceof' must be of type 'any' or 'object'".
Definition instanceofRight : string :=
  "The right-hand side of 'instanceof' must be of type 'any' or 'Function'".
Definition inLeft : string :=
  "The left-hand side of a 'in' operator must be of type 'any', 'number', 'string' or 'symbol'".
Definition inRight : string :=
  "The right-hand side of a 'in' operator must be of type 'any' or 'object'".

Definition isKind (k : TypeKind.t) (t : Type_) : bool := bool_decide (kind t = k).

(** Modelled from the spec: a requirement of the rule table on one
    operand; a violation is reported on that operand's range. *)
Definition require (ok : bool) (operand : Expression) (m : string) : list Diagnostic :=
  if ok then [] else [at_ operand m].

(** Modelled from the spec: when [+] is valid (section 4.4). *)
Definition plusValid (tl tr : Type_) : bool :=
  (isKind TypeKind.Number tl && isKind TypeKind.Number tr)
  || (isKind TypeKind.String tl || isKind TypeKind.String tr)
  || (isKind TypeKind.Any tl || isKind TypeKind.Any tr).

(** Modelled from the spec: the rule table of section 4.4, the left
    operand's check before the right one's. *)
Definition operatorDiagnostics (op : BinaryOperator) (l r : Expression)
    (s e : Z) (tl tr : Type_) : list Diagnostic :=
  match op with
  | Mul | Div | Sub =>
      require (isKind TypeKind.Number tl || isKind TypeKind.Any tl) l (arithmeticLeft op)
      ++ require (isKind TypeKind.Number tr || isKind TypeKind.Any tr) r (arithmeticRight op)
  | Add =>
      if plusValid tl tr then []
      else [ {| message := cannotApplyPlus tl tr; start := s; end_ := e |} ]
  | StrictEqual | StrictNotEqual | Equal | NotEqual => []
  | InstanceOf =>
      require (isKind TypeKind.Object tl || isKind TypeKind.Any tl) l instanceofLeft
      ++ require (isKind TypeKind.Function tr || isKind TypeKind.Any tr) r instanceofRight
  | In =>
      require (isKind TypeKind.Number tl || isKind TypeKind.String tl
               || isKind TypeKind.Symbol tl || isKind TypeKind.Any tl) l inLeft
      ++ require (isKind TypeKind.Object tr || isKind TypeKind.Any tr) r inRight
  end.

Section Engine.

(** The specification does not say which type a binary expression has
    as an operand of an enclosing one; the engine takes it as a
    parameter. *)
Variable resultType : BinaryOperator -> Type_ -> Type_ -> Type_.

(** Modelled from the spec: the walk of section 4.4. An identifier is
    looked up in the scope, an unresolved one is reported on its range
    and goes on as [Any]; a binary expression reports its own rule
    first, then what its left and its right operand report (outer to
    inner, left to right). *)
Fixpoint typeOf (x : Expression) (scope : SymbolTable) : list Diagnostic * Type_ :=
  match x with
  | Identifier n s e =>
      match lookup scope n with
      | Some sym => ([], type sym)
      | None => ([ {| message := notDefined n; start := s; end_ := e |} ], anyType)
      end
  | Literal t _ _ => ([], t)
  | BinaryExpression op l r s e =>
      let '(dl, tl) := typeOf l scope in
      let '(dr, tr) := typeOf r scope in
      (operatorDiagnostics op l r s e tl tr ++ dl ++ dr, resultType op tl tr)
  end.

(** Modelled from the spec: [checkExpression] of section 4.4, from the
    root of an expression and a scope to the diagnostics. *)
Definition checkExpression (x : Expression) (scope : SymbolTable) : list Diagnostic :=
  (typeOf x scope).1.

End Engine.

End Checker.

(** ** Notions the properties are stated with *)

(** A read of one of the two lazy getters of an instance, or of the type of
    a symbol. *)
Inductive Access : Set :=
| GetMembers (this : ref)
| GetCallSignatures (this : ref)
| GetType (sym : TypeScriptSymbol).

Definition access (context : TypeScriptContext) (a : Access) (w : World) : World :=
  match a with
  | GetMembers this => (members context this w).2
  | GetCallSignatures this => (callSignatures context this w).2
  | GetType sym => (TypeScriptSymbol_type context sym w).2
  end.

(** The world after a sequence of accesses, in order. *)
Definition accesses (context : TypeScriptContext) (l : list Access) (w : World) : World :=
  foldl (fun w a => access context a w) w l.

(** [w'] has every object [w] has, unchanged, and possibly new ones. *)
Definition extends (w w' : World) : Prop :=
  (nextRef w <= nextRef w')%nat
  /\ compiles w' = compiles w
  /\ forall r, (r < nextRef w)%nat -> heap w' !! r = heap w !! r.

(** A computation that only allocates. *)
Definition allocating {A} (c : M World A) : Prop :=
  forall w, extends w (c w).2 /\ exists a, (c w).1 = Return a.

(** An allocated instance whose [_members] holds [st]. *)
Definition membersIs (this : ref) (st : SimpleSymbolTable) (w : World) : Prop :=
  (this < nextRef w)%nat
  /\ exists o, heap w !! this = Some o /\ _members o = Some st.

Definition callSignaturesIs (this : ref) (a : SignatureArray) (w : World) : Prop :=
  (this < nextRef w)%nat
  /\ exists o, heap w !! this = Some o /\ _callSignatures o = Some a.

(** The instance built for the declaration [prop] is cached under [k]. *)
Definition populatedFrom (context : TypeScriptContext) (prop : HostNode)
    (k : TypeKind.t) (s : State) : Prop :=
  exists r : ref,
    cache s.1 !! k = Some (Instance r)
    /\ heap s.2 !! r = Some {| tsType := getTypeAtLocation context prop; node := prop;
                               _members := None; _callSignatures := None |}.

(** What the walk of the fixture may do to the state: allocate, and add or
    replace cache entries; the flag and the entries' presence stay. *)
Definition advances (s s' : State) : Prop :=
  cached s'.1 = cached s.1
  /\ extends s.2 s'.2
  /\ forall k, is_Some (cache s.1 !! k) -> is_Some (cache s'.1 !! k).

Definition steady {A} (c : M State A) : Prop := forall s, advances s (c s).2.

(** The state after a sequence of calls, in order, whatever they answer. *)
Definition calls (context : TypeScriptContext) (ks : list TypeKind.t) (s : State) : State :=
  foldl (fun s k => (getTypeByKind context k s).2) s ks.

(** The four kinds that are loaded from the fixture. *)
Definition scalar (k : TypeKind.t) : Prop :=
  k = TypeKind.String \/ k = TypeKind.Number
  \/ k = TypeKind.Boolean \/ k = TypeKind.Symbol.

(** ** Sample host data *)

(** A host for the closed examples: a type's handle is its flags word,
    every type has two properties and one call signature of two
    parameters. *)
Definition sampleContext (fx : list Node) : TypeScriptContext :=
  {| ts := TypeFlags.ts2;
     flags := fun t => Z.of_nat t;
     getProperties := fun _ => [1; 2]%nat;
     getCallSignatures := fun _ => [5]%nat;
     getParameters := fun _ => [3; 4]%nat;
     getReturnType := fun _ => 4%nat;
     getTypeOfSymbolAtLocation := fun p _ => p;
     fixture := fx;
     getTypeAtLocation := fun n => n |}.

(** A variable statement: the statement, its declaration list, and the
    declaration with its name and its type node. *)
Definition declare (id : HostNode) (text : string) : Node :=
  OtherNode id
    [ OtherNode (id + 1)
        [ VariableDeclaration (id + 2) (Some text)
            [ OtherNode (id + 3) []; OtherNode (id + 4) [] ] ] ]%nat.

(** Modelled from the spec: the fixture [data/type-provider.ts], which is not
    among the sources at hand; section 4.2 describes it as declaring one
    variable per primitive kind, [string], [number], [boolean], [symbol]. *)
Definition typeProvider : list Node :=
  [ declare 10 "string"; declare 20 "number";
    declare 30 "boolean"; declare 40 "symbol" ]%nat.

Definition emptyWorld : World := {| heap := ∅; nextRef := 0; compiles := 0 |}.

(** A world with a single instance, nothing memoized yet. *)
Definition oneInstance : World :=
  {| heap := {[ 0%nat := {| tsType := 9%nat; node := 7%nat;
                            _members := None; _callSignatures := None |} ]};
     nextRef := 1;
     compiles := 0 |}.

(** Sample types for the literals [null] and [{}] and for a symbol. *)
Definition sampleNull : Checker.Type_ :=
  {| Checker.name := "null"; Checker.kind := TypeKind.Null |}.
Definition sampleObject : Checker.Type_ :=
  {| Checker.name := "Object"; Checker.kind := TypeKind.Object |}.
Definition sampleSymbol : Checker.Type_ :=
  {| Checker.name := "symbol"; Checker.kind := TypeKind.Symbol |}.

(** A sample assignment of types to binary expressions, after JavaScript:
    the arithmetic operators give a number; [+] gives a string when one
    side is a string, a number when both sides are numbers and [any]
    otherwise; the other operators give a boolean. *)
Definition sampleResult (op : Checker.BinaryOperator) (tl tr : Checker.Type_)
    : Checker.Type_ :=
  match op with
  | Checker.Mul | Checker.Div | Checker.Sub => Checker.BuiltIn.number
  | Checker.Add =>
      if Checker.isKind TypeKind.String tl || Checker.isKind TypeKind.String tr
      then Checker.BuiltIn.string
      else if Checker.isKind TypeKind.Number tl && Checker.isKind TypeKind.Number tr
           then Checker.BuiltIn.number
           else Checker.anyType
  | _ => Checker.BuiltIn.boolean
  end.

(** Induction on syntax trees, the children of a node first. *)
Section NodeInduction.

Variable P : Node -> Prop.
Hypothesis declaration :
  forall id type children, Forall P children -> P (VariableDeclaration id type children).
Hypothesis other :
  forall id children, Forall P children -> P (OtherNode id children).

Fixpoint Node_children_ind (n : Node) : P n :=
  let all :=
    fix all (l : list Node) : Forall P l :=
      match l with
      | [] => List.Forall_nil P
      | c :: l' => @List.Forall_cons _ P c l' (Node_children_ind c) (all l')
      end in
  match n with
  | VariableDeclaration id type children => declaration id type children (all children)
  | OtherNode id children => other id children (all children)
  end.

End NodeInduction.

(** ** The rest of the adapter *)

(** [createTypeRepository(context)]. *)
Definition createTypeRepository (context : TypeScriptContext) : TypeScriptTypeRepository :=
  newRepository.

(** What the name getters read from the host: [tsType.symbol], which may be
    undefined, [symbol.name], [tsSymbol.getName()] and
    [checker.typeToString(tsType)]. *)
Record HostNames : Set := {
  symbol : HostType -> option HostSymbol;
  symbol_name : HostSymbol -> string;
  getName : HostSymbol -> string;
  typeToString : HostType -> string
}.

(** [get name()] of a [TypeScriptSymbol]. *)
Definition TypeScriptSymbol_name (names : HostNames) (sym : TypeScriptSymbol) : string :=
  getName names (tsSymbol sym).

(** [a || b] on strings: the empty string is the only falsy one. *)
Definition orElse (a b : string) : string :=
  match a with
  | EmptyString => b
  | _ => a
  end.

(** [get name()] of a [TypeScriptType]. *)
Definition TypeScriptType_name (names : HostNames) (o : TypeScriptType) : string :=
  match symbol names (tsType o) with
  | Some sym => symbol_name names sym
  | None => orElse (typeToString names (tsType o)) "<anonymous>"
  end.

(** [t] is an instance as [new TypeScriptType(type, n, context)] leaves it. *)
Definition instanceOf (w : World) (t : Type_) (type : HostType) (n : HostNode) : Prop :=
  exists r : ref,
    t = Instance r
    /\ heap w !! r = Some {| tsType := type; node := n;
                             _members := None; _callSignatures := None |}.

(** The same, with the reference of the instance between two bounds. *)
Definition instanceWithin (lo hi : ref) (w : World) (t : Type_)
    (type : HostType) (n : HostNode) : Prop :=
  exists r : ref,
    t = Instance r
    /\ (lo <= r < hi)%nat
    /\ heap w !! r = Some {| tsType := type; node := n;
                             _members := None; _callSignatures := None |}.

Definition signatureWithin (context : TypeScriptContext) (n : HostNode)
    (lo hi : ref) (w : World) (sig : CallSignature) (s : HostSignature) : Prop :=
  Forall2 (fun t p => instanceWithin lo hi w t (getTypeOfSymbolAtLocation context p n) n)
          (argTypes sig) (getParameters context s)
  /\ instanceWithin lo hi w (returnType sig) (getReturnType context s) n.

(** A relation between results and inputs that holds of the objects between
    two references and keeps holding as the world grows. *)
Definition stable {A B} (R : ref -> ref -> World -> B -> A -> Prop) : Prop :=
  forall lo hi lo' hi' w w' b a,
    R lo hi w b a ->
    (lo' <= lo)%nat -> (hi <= hi')%nat -> (hi <= nextRef w)%nat -> extends w w' ->
    R lo' hi' w' b a.

(** A call signature of the adapter stands for the host signature [s] at
    the anchor [n]: one fresh instance per parameter, in order, and one for
    the return type. *)
Definition signatureOf (context : TypeScriptContext) (w : World) (n : HostNode)
    (sig : CallSignature) (s : HostSignature) : Prop :=
  Forall2 (fun t p => instanceOf w t (getTypeOfSymbolAtLocation context p n) n)
          (argTypes sig) (getParameters context s)
  /\ instanceOf w (returnType sig) (getReturnType context s) n.

(** The variable declarations of a tree in document order, each with the
    text of its type annotation. *)
Fixpoint declarations (n : Node) : list (HostNode * option string) :=
  let within :=
    fix within (children : list Node) : list (HostNode * option string) :=
      match children with
      | [] => []
      | c :: children' => declarations c ++ within children'
      end in
  match n with
  | VariableDeclaration prop type children => (prop, type) :: within children
  | OtherNode _ children => within children
  end.

Fixpoint declarationsOf (children : list Node) : list (HostNode * option string) :=
  match children with
  | [] => []
  | c :: children' => declarations c ++ declarationsOf children'
  end.

(** The inner switch run on a sequence of declarations, stopping at the
    first one that throws. *)
Fixpoint dispatchAll (context : TypeScriptContext)
    (ds : list (HostNode * option string)) : M State unit :=
  match ds with
  | [] => ret tt
  | (prop, type) :: ds' => (dispatch context prop type ;;; dispatchAll context ds')%js
  end.

(** A declaration whose switch runs the body of kind [k]. *)
Definition provides (k : TypeKind.t) (d : HostNode * option string) : bool :=
  match d.2 with
  | Some text => bool_decide (k ∈ entered text cases)
  | None => false
  end.

(** The last declaration of [ds] that provides [k]. *)
Fixpoint provider (k : TypeKind.t) (ds : list (HostNode * option string)) : option HostNode :=
  match ds with
  | [] => None
  | d :: ds' =>
      match provider k ds' with
      | Some prop => Some prop
      | None => if provides k d then Some d.1 else None
      end
  end.

(** The cache entry of [k] is an allocated instance built for the
    declaration [prop]. *)
Definition builtFrom (context : TypeScriptContext) (prop : HostNode)
    (k : TypeKind.t) (s : State) : Prop :=
  exists r : ref,
    cache s.1 !! k = Some (Instance r)
    /\ (r < nextRef s.2)%nat
    /\ heap s.2 !! r = Some {| tsType := getTypeAtLocation context prop; node := prop;
                               _members := None; _callSignatures := None |}.

(** Every declaration carries a type annotation. *)
Definition annotated (ds : list (HostNode * option string)) : Prop :=
  Forall (fun d => is_Some d.2) ds.

(** What holds of the cache of a repository at all times: its keys are
    scalar kinds, its values are allocated instances, and no instance is
    cached under two kinds. *)
Definition cacheInvariant (s : State) : Prop :=
  (forall k t, cache s.1 !! k = Some t ->
     scalar k
     /\ exists r : ref, t = Instance r /\ (r < nextRef s.2)%nat /\ is_Some (heap s.2 !! r))
  /\ (forall k1 k2 t, cache s.1 !! k1 = Some t -> cache s.1 !! k2 = Some t -> k1 = k2).

(** A computation that keeps the invariant of the cache. *)
Definition keeps {A} (c : M State A) : Prop :=
  forall s, cacheInvariant s -> cacheInvariant (c s).2.

(** Modelled from the spec: the kinds of the three singletons of [type.ts]
    (section 3). The [kind] fields of [number], [string] and [boolean] are
    the ones written in the stub. *)
Definition Stub_kind (t : Stub.Type_) : TypeKind.t :=
  match t with
  | Stub.number => TypeKind.Number
  | Stub.string => TypeKind.String
  | Stub.boolean => TypeKind.Boolean
  | Stub.nullType => TypeKind.Null
  | Stub.undefinedType => TypeKind.Undefined
  | Stub.anyType => TypeKind.Any
  end.

(** A host with names, for the closed examples. *)
Definition sampleNames : HostNames :=
  {| symbol := fun t => if (t =? 0)%nat then None else Some t;
     symbol_name := fun sym => "Bar";
     getName := fun sym => "bar";
     typeToString := fun t => EmptyString |}.

(** ** The checker engine with the Any fallback carried upwards *)




(** ** The fixture and the instances of call signatures *)

(** Modelled from the spec: the fixture as section 4.2 describes it, a
    source that declares a variable of each of the types [string],
    [number], [boolean] and [symbol]; every variable declaration in it has
    a type annotation. *)
Definition asDescribed (context : TypeScriptContext) : Prop :=
  annotated (declarationsOf (fixture context))
  /\ forall text,
       text ∈ ["string"; "number"; "boolean"; "symbol"] ->
       exists prop, (prop, Some text) ∈ declarationsOf (fixture context).

(** A repository that has loaded answers every scalar kind from its cache
    with an instance. *)
Definition answering (s : State) : Prop :=
  cached s.1 = true ->
  forall k, scalar k -> exists r : ref, cache s.1 !! k = Some (Instance r).

(** The instances held by a sequence of call signatures, in the order the
    getter creates them: the parameters of a signature, then its return
    type, signature after signature. *)
Fixpoint instancesOf (sigs : list CallSignature) : list Type_ :=
  match sigs with
  | [] => []
  | sig :: sigs' => (argTypes sig ++ [returnType sig]) ++ instancesOf sigs'
  end.

(** * Properties *)

(** ** The classification of host types *)
Section KindFacts.

Variable tf : TypeFlags.t.

Lemma firstMatch_split tests pre m k post flags :
  tests = pre ++ (m, k) :: post ->
  Forall (fails flags) pre ->
  truthy (flags .& m) = true ->
  firstMatch tests flags = k.
Proof.
  intros -> Hpre Hm. induction Hpre as [|[m' k'] pre Hhd _ IH]; simpl.
  - by rewrite Hm.
  - unfold fails in Hhd. simpl in Hhd. by rewrite Hhd.
Qed.

Lemma firstMatch_none tests flags :
  Forall (fails flags) tests -> firstMatch tests flags = TypeKind.Other.
Proof.
  induction 1 as [|[m k] tests Hhd _ IH]; simpl; [done|].
  unfold fails in Hhd. simpl in Hhd. by rewrite Hhd.
Qed.

Lemma kind_firstMatch flags : kind tf flags = firstMatch (precedence tf) flags.
Proof. reflexivity. Qed.

End KindFacts.

(** C2. [TypeScriptType.kind] tests the flags in the order Any, boolean-like,
    string-like, number-like, Symbol, Undefined, Null: it is the kind of the
    first test of that list the flags pass, whatever later tests they would
    pass as well, and [Other] when they pass none. *)
Theorem kind_precedence (tf : TypeFlags.t) (flags : Z) :
  kind tf flags = firstMatch (precedence tf) flags
  /\ (forall pre m k post,
        precedence tf = pre ++ (m, k) :: post ->
        Forall (fails flags) pre ->
        truthy (flags .& m) = true ->
        kind tf flags = k)
  /\ (Forall (fails flags) (precedence tf) -> kind tf flags = TypeKind.Other).
Proof.
  split; [reflexivity|]. split.
  - intros pre m k post Hsplit Hpre Hm. rewrite kind_firstMatch.
    by eapply firstMatch_split.
  - intros Hall. rewrite kind_firstMatch. by apply firstMatch_none.
Qed.

(** C2 at a type with the String and the Number bit set: it passes the third
    and the fourth test, and the third one decides. *)
Lemma kind_precedence_witness : kind TypeFlags.ts2 6 = TypeKind.String.
Proof.
  apply (proj1 (proj2 (kind_precedence TypeFlags.ts2 6))
           [ (TypeFlags.Any TypeFlags.ts2, TypeKind.Any);
             (booleanMask TypeFlags.ts2, TypeKind.Boolean) ]
           (stringMask TypeFlags.ts2) TypeKind.String
           [ (numberMask TypeFlags.ts2, TypeKind.Number);
             (TypeFlags.ESSymbol TypeFlags.ts2, TypeKind.Symbol);
             (TypeFlags.Undefined TypeFlags.ts2, TypeKind.Undefined);
             (TypeFlags.Null TypeFlags.ts2, TypeKind.Null) ]).
  - reflexivity.
  - repeat constructor.
  - reflexivity.
Defined.

(** C10. [TypeScriptType.kind] never answers [Object] or [Function]; a type
    whose flags pass none of the seven tests is [Other]. *)
Theorem kind_never_Object_or_Function (tf : TypeFlags.t) (flags : Z) :
  kind tf flags <> TypeKind.Object
  /\ kind tf flags <> TypeKind.Function
  /\ (Forall (fails flags) (precedence tf) -> kind tf flags = TypeKind.Other).
Proof.
  split; [|split].
  - unfold kind. repeat case_match; discriminate.
  - unfold kind. repeat case_match; discriminate.
  - intros Hall. rewrite kind_firstMatch. by apply firstMatch_none.
Qed.

(** C10 at the flags of an object type in the sample layout. *)
Lemma kind_never_Object_or_Function_witness :
  kind TypeFlags.ts2 32768 = TypeKind.Other.
Proof.
  apply (proj2 (proj2 (kind_never_Object_or_Function TypeFlags.ts2 32768))).
  repeat constructor.
Defined.

(** ** The operator rules of the checker *)
Section CheckerFacts.

Import Checker.

Variable resultType : BinaryOperator -> Type_ -> Type_ -> Type_.

(** What a binary expression reports: its own rule, then its operands. *)
Lemma checkExpression_binary op l r s e scope :
  checkExpression resultType (BinaryExpression op l r s e) scope =
    operatorDiagnostics op l r s e
      (typeOf resultType l scope).2 (typeOf resultType r scope).2
    ++ checkExpression resultType l scope
    ++ checkExpression resultType r scope.
Proof.
  unfold checkExpression. simpl.
  destruct (typeOf resultType l scope) as [dl tl].
  by destruct (typeOf resultType r scope) as [dr tr].
Qed.

Lemma isKind_true k t : isKind k t = true <-> kind t = k.
Proof. unfold isKind. apply bool_decide_eq_true. Qed.

Lemma isKind_false k t : isKind k t = false <-> kind t <> k.
Proof. unfold isKind. apply bool_decide_eq_false. Qed.

Lemma require_ok ok x m : ok = true -> require ok x m = [].
Proof. by intros ->. Qed.

Lemma require_violated ok x m : ok = false -> require ok x m = [at_ x m].
Proof. by intros ->. Qed.

(** Two kinds being accepted, as a proposition. *)
Lemma either_kind k1 k2 t :
  isKind k1 t || isKind k2 t = true <-> kind t = k1 \/ kind t = k2.
Proof. rewrite orb_true_iff, !isKind_true. tauto. Qed.

Lemma neither_kind k1 k2 t :
  isKind k1 t || isKind k2 t = false <-> ~ (kind t = k1 \/ kind t = k2).
Proof. rewrite <- either_kind. by destruct (_ || _). Qed.

Lemma plusValid_spec tl tr :
  plusValid tl tr = true <->
  (kind tl = TypeKind.Number /\ kind tr = TypeKind.Number)
  \/ (kind tl = TypeKind.String \/ kind tr = TypeKind.String)
  \/ (kind tl = TypeKind.Any \/ kind tr = TypeKind.Any).
Proof.
  unfold plusValid. rewrite !orb_true_iff, andb_true_iff, !isKind_true. tauto.
Qed.






End CheckerFacts.

(** The expectations of [checker.spec.ts], in the order of the file, on the
    engine with the sample types. *)
Example checker_spec_expectations :
  let check := Checker.checkExpression sampleResult in
  let num := Checker.Literal Checker.BuiltIn.number in
  let str := Checker.Literal Checker.BuiltIn.string in
  let bool := Checker.Literal Checker.BuiltIn.boolean in
  let null := Checker.Literal sampleNull in
  let obj := Checker.Literal sampleObject in
  let id := Checker.Identifier in
  let bin := Checker.BinaryExpression in
  let bind n t := {| Checker.symbolName := n; Checker.type := t |} in
  let ty n k := {| Checker.name := n; Checker.kind := k |} in
  let diag m s e := {| Checker.message := m; Checker.start := s; Checker.end_ := e |} in
  (* 'foo + bar + 123' *)
  check (bin Checker.Add (bin Checker.Add (id "foo" 0 3) (id "bar" 6 9) 0 9) (num 12 15) 0 15)
    [bind "foo" Checker.BuiltIn.number]
  = [diag "'bar' is not defined" 6 9]
  (* '1 + 2 + 3' *)
  /\ check (bin Checker.Add (bin Checker.Add (num 0 1) (num 4 5) 0 5) (num 8 9) 0 9) [] = []
  (* '"1" + 2 + null' *)
  /\ check (bin Checker.Add (bin Checker.Add (str 0 3) (num 6 7) 0 7) (null 10 14) 0 14) [] = []
  (* '1 + true' *)
  /\ check (bin Checker.Add (num 0 1) (bool 4 8) 0 8) []
     = [diag "The binary operator '+' cannot be applied to type 'number' and 'boolean'" 0 8]
  (* '12 === {}' *)
  /\ check (bin Checker.StrictEqual (num 0 2) (obj 7 9) 0 9) [] = []
  (* '123 * 456 / 789 - 30' *)
  /\ check (bin Checker.Sub
              (bin Checker.Div (bin Checker.Mul (num 0 3) (num 6 9) 0 9) (num 12 15) 0 15)
              (num 18 20) 0 20) [] = []
  (* 'true - 42' *)
  /\ check (bin Checker.Sub (bool 0 4) (num 7 9) 0 9) []
     = [diag "The left-hand side of a binary operator '-' must be of type 'number' or 'any'" 0 4]
  (* '12 - 3 * "foo"' *)
  /\ check (bin Checker.Sub (num 0 2) (bin Checker.Mul (num 5 6) (str 9 14) 5 14) 0 14) []
     = [diag "The right-hand side of a binary operator '*' must be of type 'number' or 'any'" 9 14]
  (* 'foo instanceof Bar' *)
  /\ check (bin Checker.InstanceOf (id "foo" 0 3) (id "Bar" 15 18) 0 18)
       [bind "foo" (ty "Bar" TypeKind.Object); bind "Bar" (ty "typeof Bar" TypeKind.Function)]
     = []
  (* '123 instanceof Bar' *)
  /\ check (bin Checker.InstanceOf (num 0 3) (id "Bar" 15 18) 0 18)
       [bind "Bar" (ty "typeof Bar" TypeKind.Function)]
     = [diag "The left-hand side of 'instanceof' must be of type 'any' or 'object'" 0 3]
  (* 'foo instanceof bar' *)
  /\ check (bin Checker.InstanceOf (id "foo" 0 3) (id "bar" 15 18) 0 18)
       [bind "foo" (ty "Bar" TypeKind.Object); bind "bar" (ty "Bar" TypeKind.Object)]
     = [diag "The right-hand side of 'instanceof' must be of type 'any' or 'Function'" 15 18]
  (* 'sym in {}' *)
  /\ check (bin Checker.In (id "sym" 0 3) (obj 7 9) 0 9) [bind "sym" sampleSymbol] = []
  (* 'foo in {}' *)
  /\ check (bin Checker.In (id "foo" 0 3) (obj 7 9) 0 9) [bind "foo" Checker.BuiltIn.boolean]
     = [diag "The left-hand side of a 'in' operator must be of type 'any', 'number', 'string' or 'symbol'" 0 3]
  (* '"key" in null' *)
  /\ check (bin Checker.In (str 0 5) (null 9 13) 0 13) []
     = [diag "The right-hand side of a 'in' operator must be of type 'any' or 'object'" 9 13].
Proof. repeat split. Qed.

(** ** Memoization in [TypeScriptType] *)

Section WorldFacts.

Variable context : TypeScriptContext.

Lemma extends_refl w : extends w w.
Proof. by repeat split. Qed.

Lemma extends_trans w1 w2 w3 : extends w1 w2 -> extends w2 w3 -> extends w1 w3.
Proof.
  intros (Hn1 & Hc1 & Hh1) (Hn2 & Hc2 & Hh2). repeat split.
  - lia.
  - congruence.
  - intros r Hr. rewrite Hh2 by lia. by apply Hh1.
Qed.

Lemma allocating_ret {A} (a : A) : allocating (ret a).
Proof. intros w. split; [apply extends_refl | by exists a]. Qed.

Lemma allocating_bind {A B} (c : M World A) (k : A -> M World B) :
  allocating c -> (forall a, allocating (k a)) -> allocating (bind c k).
Proof.
  intros Hc Hk w. unfold bind. destruct (Hc w) as [Hext [a Ha]].
  destruct (c w) as [o w']. simpl in *. subst o.
  destruct (Hk a w') as [Hext' Hret]. split; [|done].
  by eapply extends_trans.
Qed.

Lemma allocating_newTypeScriptType type n : allocating (newTypeScriptType type n).
Proof.
  intros w. split; [|by eexists]. repeat split; simpl; [lia|].
  intros r Hr. apply lookup_insert_ne. lia.
Qed.

Lemma allocating_mapM {A B} (f : A -> M World B) xs :
  (forall x, allocating (f x)) -> allocating (mapM f xs).
Proof.
  intros Hf. induction xs as [|x xs IH]; simpl.
  - apply allocating_ret.
  - apply allocating_bind; [apply Hf|]. intros y.
    apply allocating_bind; [apply IH|]. intros ys. apply allocating_ret.
Qed.

Lemma allocating_makeSignature n s : allocating (makeSignature context n s).
Proof.
  unfold makeSignature. apply allocating_bind.
  - apply allocating_mapM. intros p. apply allocating_newTypeScriptType.
  - intros args. apply allocating_bind; [apply allocating_newTypeScriptType|].
    intros r. apply allocating_ret.
Qed.

(** What [get members()] does to the world, case by case. *)
Lemma members_eq (this : ref) w :
  members context this w =
    match heap w !! this with
    | None => (Throw DanglingReference, w)
    | Some o =>
        match _members o with
        | Some st => (Return st, w)
        | None =>
            let st := {| tableRef := nextRef w;
                         symbols := map (fun s => {| tsSymbol := s; symbolNode := node o |})
                                        (getProperties context (tsType o)) |} in
            (Return st,
             {| heap := alter (fun o => {| tsType := tsType o; node := node o;
                                           _members := Some st;
                                           _callSignatures := _callSignatures o |})
                              this (heap w);
                nextRef := S (nextRef w);
                compiles := compiles w |})
        end
    end.
Proof.
  unfold members, bind, deref. destruct (heap w !! this) as [o|]; [|done].
  by destruct (_members o).
Qed.

(** The same for [get callSignatures()]: [w'] is the world after the
    signatures were built. *)
Lemma callSignatures_eq (this : ref) w :
  callSignatures context this w =
    match heap w !! this with
    | None => (Throw DanglingReference, w)
    | Some o =>
        match _callSignatures o with
        | Some a => (Return a, w)
        | None =>
            let '(sigs, w') :=
              mapM (makeSignature context (node o))
                   (getCallSignatures context (tsType o)) w in
            match sigs with
            | Throw e => (Throw e, w')
            | Return sigs =>
                let a := {| arrayRef := nextRef w'; items := sigs |} in
                (Return a,
                 {| heap := alter (fun o => {| tsType := tsType o; node := node o;
                                               _members := _members o;
                                               _callSignatures := Some a |})
                                  this (heap w');
                    nextRef := S (nextRef w');
                    compiles := compiles w' |})
            end
        end
    end.
Proof.
  unfold callSignatures, bind, deref. destruct (heap w !! this) as [o|]; [|done].
  destruct (_callSignatures o); [done|].
  by destruct (mapM _ _ w) as [[sigs|e] w'].
Qed.

Lemma members_memo (this : ref) st w :
  membersIs this st w -> members context this w = (Return st, w).
Proof. intros (_ & o & Ho & Hm). by rewrite members_eq, Ho, Hm. Qed.

Lemma callSignatures_memo (this : ref) a w :
  callSignaturesIs this a w -> callSignatures context this w = (Return a, w).
Proof. intros (_ & o & Ho & Hm). by rewrite callSignatures_eq, Ho, Hm. Qed.

End WorldFacts.

Section MemoFacts.

Variable context : TypeScriptContext.

Lemma signatures_built n ss w :
  exists sigs w',
    mapM (makeSignature context n) ss w = (Return sigs, w') /\ extends w w'.
Proof.
  destruct (allocating_mapM (makeSignature context n) ss
              (allocating_makeSignature context n) w) as [Hext [sigs Hret]].
  destruct (mapM _ _ w) as [o w']. simpl in *. subst o. by exists sigs, w'.
Qed.

(** The first access fills the memo field. *)
Lemma members_fills (this : ref) st w w1 :
  (this < nextRef w)%nat ->
  members context this w = (Return st, w1) ->
  membersIs this st w1.
Proof.
  intros Hlt. rewrite members_eq.
  destruct (heap w !! this) as [o|] eqn:Ho; [|done].
  destruct (_members o) as [st'|] eqn:Hm.
  - intros [= <- <-]. split; [done|]. by exists o.
  - simpl. intros [= <- <-]. split; simpl; [lia|].
    eexists. rewrite lookup_alter_eq, Ho. by split.
Qed.

Lemma callSignatures_fills (this : ref) a w w1 :
  (this < nextRef w)%nat ->
  callSignatures context this w = (Return a, w1) ->
  callSignaturesIs this a w1.
Proof.
  intros Hlt. rewrite callSignatures_eq.
  destruct (heap w !! this) as [o|] eqn:Ho; [|done].
  destruct (_callSignatures o) as [a'|] eqn:Hm.
  - intros [= <- <-]. split; [done|]. by exists o.
  - destruct (signatures_built (node o) (getCallSignatures context (tsType o)) w)
      as (sigs & w' & -> & Hn & _ & Hh).
    intros [= <- <-]. split; simpl; [lia|].
    eexists. rewrite lookup_alter_eq, Hh, Ho by done. by split.
Qed.

(** No access to a getter, of this or of another instance, empties or
    changes a filled memo field. *)
Lemma access_keeps_members a (this : ref) st w :
  membersIs this st w -> membersIs this st (access context a w).
Proof.
  intros (Hlt & o & Ho & Hm). destruct a as [r|r|sym]; simpl.
  - rewrite members_eq. destruct (heap w !! r) as [o'|] eqn:Ho'; [|by split; eauto].
    destruct (_members o') eqn:Hm'; [by split; eauto|].
    split; simpl; [lia|]. destruct (decide (r = this)) as [->|Hne].
    + congruence.
    + exists o. by rewrite lookup_alter_ne.
  - rewrite callSignatures_eq. destruct (heap w !! r) as [o'|] eqn:Ho'; [|by split; eauto].
    destruct (_callSignatures o') eqn:Hm'; [by split; eauto|].
    destruct (signatures_built (node o') (getCallSignatures context (tsType o')) w)
      as (sigs & w' & -> & Hn & _ & Hh).
    split; simpl; [lia|]. destruct (decide (r = this)) as [->|Hne].
    + eexists. rewrite lookup_alter_eq, Hh, Ho by done. by split.
    + exists o. by rewrite lookup_alter_ne, Hh.
  - split; simpl; [lia|]. exists o. by rewrite lookup_insert_ne by lia.
Qed.

Lemma access_keeps_callSignatures a (this : ref) arr w :
  callSignaturesIs this arr w -> callSignaturesIs this arr (access context a w).
Proof.
  intros (Hlt & o & Ho & Hm). destruct a as [r|r|sym]; simpl.
  - rewrite members_eq. destruct (heap w !! r) as [o'|] eqn:Ho'; [|by split; eauto].
    destruct (_members o') eqn:Hm'; [by split; eauto|].
    split; simpl; [lia|]. destruct (decide (r = this)) as [->|Hne].
    + eexists. rewrite lookup_alter_eq, Ho. by split.
    + exists o. by rewrite lookup_alter_ne.
  - rewrite callSignatures_eq. destruct (heap w !! r) as [o'|] eqn:Ho'; [|by split; eauto].
    destruct (_callSignatures o') eqn:Hm'; [by split; eauto|].
    destruct (signatures_built (node o') (getCallSignatures context (tsType o')) w)
      as (sigs & w' & -> & Hn & _ & Hh).
    split; simpl; [lia|]. destruct (decide (r = this)) as [->|Hne].
    + congruence.
    + exists o. by rewrite lookup_alter_ne, Hh.
  - split; simpl; [lia|]. exists o. by rewrite lookup_insert_ne by lia.
Qed.

Lemma accesses_keep_members l (this : ref) st w :
  membersIs this st w -> membersIs this st (accesses context l w).
Proof.
  revert w. induction l as [|a l IH]; intros w H; simpl; [done|].
  apply IH. by apply access_keeps_members.
Qed.

Lemma accesses_keep_callSignatures l (this : ref) arr w :
  callSignaturesIs this arr w -> callSignaturesIs this arr (accesses context l w).
Proof.
  revert w. induction l as [|a l IH]; intros w H; simpl; [done|].
  apply IH. by apply access_keeps_callSignatures.
Qed.

End MemoFacts.

(** ** Built-in loading *)

Section LoadingFacts.

Variable context : TypeScriptContext.

Lemma advances_refl s : advances s s.
Proof. repeat split; auto. Qed.

Lemma advances_trans s1 s2 s3 : advances s1 s2 -> advances s2 s3 -> advances s1 s3.
Proof.
  intros (Hc1 & He1 & Hk1) (Hc2 & He2 & Hk2). split; [congruence|]. split.
  - by eapply extends_trans.
  - auto.
Qed.

Lemma steady_ret {A} (a : A) : steady (ret a).
Proof. intros s. apply advances_refl. Qed.

Lemma steady_throw {A} e : steady (throw (A:=A) e).
Proof. intros s. apply advances_refl. Qed.

Lemma steady_bind {A B} (c : M State A) (k : A -> M State B) :
  steady c -> (forall a, steady (k a)) -> steady (bind c k).
Proof.
  intros Hc Hk s. unfold bind. specialize (Hc s).
  destruct (c s) as [[a|e] s']; simpl in *; [|done].
  eapply advances_trans; [done|]. apply Hk.
Qed.

(** One body of the switch, spelled out. *)
Lemma populate_eq prop k (s : State) :
  populate context prop k s =
    (Return tt,
     ({| cached := cached s.1; cache := <[k := Instance (nextRef s.2)]> (cache s.1) |},
      {| heap := <[nextRef s.2 := {| tsType := getTypeAtLocation context prop;
                                    node := prop;
                                    _members := None; _callSignatures := None |}]>
                   (heap s.2);
         nextRef := S (nextRef s.2);
         compiles := compiles s.2 |})).
Proof. by destruct s. Qed.

Lemma steady_populate prop k : steady (populate context prop k).
Proof.
  intros s. rewrite populate_eq. simpl. repeat split; simpl; [lia| |].
  - intros r Hr. apply lookup_insert_ne. lia.
  - intros k' Hk'. destruct (decide (k = k')) as [->|Hne].
    + rewrite lookup_insert_eq. by eexists.
    + by rewrite lookup_insert_ne.
Qed.

Lemma steady_runBodies prop ks : steady (runBodies context prop ks).
Proof.
  induction ks as [|k ks IH]; simpl; [apply steady_ret|].
  apply steady_bind; [apply steady_populate | by intros _].
Qed.

Lemma steady_dispatch prop type : steady (dispatch context prop type).
Proof. destruct type; simpl; [apply steady_runBodies | apply steady_throw]. Qed.

Lemma search_declaration prop type children :
  search context (VariableDeclaration prop type children) =
    bind (dispatch context prop type) (fun _ => forEachChild context children).
Proof. reflexivity. Qed.

Lemma search_other id children :
  search context (OtherNode id children) = forEachChild context children.
Proof. reflexivity. Qed.

Lemma steady_children children :
  Forall (fun c => steady (search context c)) children ->
  steady (forEachChild context children).
Proof.
  induction 1 as [|c children Hc _ IH]; simpl; [apply steady_ret|].
  apply steady_bind; [done | by intros _].
Qed.

Lemma steady_search n : steady (search context n).
Proof.
  induction n as [prop type children IH | id children IH] using Node_children_ind.
  - rewrite search_declaration. apply steady_bind; [apply steady_dispatch|].
    intros _. by apply steady_children.
  - rewrite search_other. by apply steady_children.
Qed.

Lemma steady_forEachChild children : steady (forEachChild context children).
Proof. apply steady_children, Forall_forall. intros c _. apply steady_search. Qed.

(** A body leaves its instance in the cache and in the heap. *)
Lemma populate_populates prop k s :
  populatedFrom context prop k (populate context prop k s).2.
Proof.
  rewrite populate_eq. exists (nextRef s.2). simpl.
  by rewrite !lookup_insert_eq.
Qed.

End LoadingFacts.

Ltac populated :=
  eexists; split;
  [ by simplify_map_eq
  | repeat (rewrite lookup_insert_ne by lia); by rewrite lookup_insert_eq ].

Section DispatchFacts.

Variable context : TypeScriptContext.

Lemma runBodies_cons prop k ks s :
  runBodies context prop (k :: ks) s =
    runBodies context prop ks (populate context prop k s).2.
Proof. simpl. unfold bind. by rewrite populate_eq. Qed.

Lemma runBodies_returns prop ks s :
  (runBodies context prop ks s).1 = Return tt.
Proof.
  revert s. induction ks as [|k ks IH]; intros s; [done|].
  rewrite runBodies_cons. apply IH.
Qed.

Lemma runBodies_present prop ks s k :
  k ∈ ks -> is_Some (cache (runBodies context prop ks s).2.1 !! k).
Proof.
  revert s. induction ks as [|k' ks IH]; intros s Hk.
  - by apply elem_of_nil in Hk.
  - rewrite runBodies_cons. apply elem_of_cons in Hk as [->|Hk]; [|by apply IH].
    apply (steady_runBodies context prop ks). rewrite populate_eq. simpl.
    rewrite lookup_insert_eq. by eexists.
Qed.

Lemma dispatch_string prop s :
  let s' := (dispatch context prop (Some "string") s).2 in
  populatedFrom context prop TypeKind.String s'
  /\ populatedFrom context prop TypeKind.Number s'
  /\ populatedFrom context prop TypeKind.Boolean s'
  /\ populatedFrom context prop TypeKind.Symbol s'.
Proof.
  change (dispatch context prop (Some "string") s) with
    (runBodies context prop
       [TypeKind.String; TypeKind.Number; TypeKind.Boolean; TypeKind.Symbol] s).
  rewrite !runBodies_cons, !populate_eq. simpl. unfold populatedFrom. simpl.
  repeat split; populated.
Qed.

Lemma dispatch_number prop s :
  let s' := (dispatch context prop (Some "number") s).2 in
  populatedFrom context prop TypeKind.Number s'
  /\ populatedFrom context prop TypeKind.Boolean s'
  /\ populatedFrom context prop TypeKind.Symbol s'
  /\ cache s'.1 !! TypeKind.String = cache s.1 !! TypeKind.String.
Proof.
  change (dispatch context prop (Some "number") s) with
    (runBodies context prop [TypeKind.Number; TypeKind.Boolean; TypeKind.Symbol] s).
  rewrite !runBodies_cons, !populate_eq. simpl. unfold populatedFrom. simpl.
  repeat split; [populated..|by simplify_map_eq].
Qed.

Lemma dispatch_boolean prop s :
  let s' := (dispatch context prop (Some "boolean") s).2 in
  populatedFrom context prop TypeKind.Boolean s'
  /\ populatedFrom context prop TypeKind.Symbol s'
  /\ cache s'.1 !! TypeKind.String = cache s.1 !! TypeKind.String
  /\ cache s'.1 !! TypeKind.Number = cache s.1 !! TypeKind.Number.
Proof.
  change (dispatch context prop (Some "boolean") s) with
    (runBodies context prop [TypeKind.Boolean; TypeKind.Symbol] s).
  rewrite !runBodies_cons, !populate_eq. simpl. unfold populatedFrom. simpl.
  repeat split; [populated..|by simplify_map_eq|by simplify_map_eq].
Qed.

Lemma dispatch_symbol prop s :
  let s' := (dispatch context prop (Some "symbol") s).2 in
  populatedFrom context prop TypeKind.Symbol s'
  /\ cache s'.1 !! TypeKind.String = cache s.1 !! TypeKind.String
  /\ cache s'.1 !! TypeKind.Number = cache s.1 !! TypeKind.Number
  /\ cache s'.1 !! TypeKind.Boolean = cache s.1 !! TypeKind.Boolean.
Proof.
  change (dispatch context prop (Some "symbol") s) with
    (runBodies context prop [TypeKind.Symbol] s).
  rewrite !runBodies_cons, !populate_eq. simpl. unfold populatedFrom. simpl.
  repeat split; [populated|by simplify_map_eq..].
Qed.

Lemma search_declaration_present prop text children s k :
  k ∈ entered text cases ->
  is_Some (cache (search context (VariableDeclaration prop (Some text) children) s).2.1 !! k).
Proof.
  intros Hk. rewrite search_declaration. unfold bind.
  change (dispatch context prop (Some text))
    with (runBodies context prop (entered text cases)).
  pose proof (runBodies_returns prop (entered text cases) s) as Hret.
  pose proof (runBodies_present prop (entered text cases) s k Hk) as Hin.
  destruct (runBodies context prop (entered text cases) s) as [o s1].
  simpl in Hret, Hin. subst o.
  by apply (steady_forEachChild context children s1).
Qed.

(** The first call marks the repository and creates the fixture program
    before it walks the tree. *)
Lemma ensureLoad_fresh (s : State) :
  cached s.1 = false ->
  ensureLoadBuiltInTypes context s =
    forEachChild context (fixture context)
      ({| cached := true; cache := cache s.1 |},
       {| heap := heap s.2; nextRef := nextRef s.2; compiles := S (compiles s.2) |}).
Proof.
  intros Hfresh. cbv [ensureLoadBuiltInTypes bind get modify]. by rewrite Hfresh.
Qed.

Lemma ensureLoad_cached (s : State) :
  cached s.1 = true -> ensureLoadBuiltInTypes context s = (Return tt, s).
Proof.
  intros Hc. cbv [ensureLoadBuiltInTypes bind get modify ret]. by rewrite Hc.
Qed.

Lemma forEachChild_single prop type s :
  (forEachChild context [VariableDeclaration prop type []] s).2 =
    (dispatch context prop type s).2.
Proof.
  cbn [forEachChild]. rewrite search_declaration. cbn [forEachChild].
  unfold bind, ret. by destruct (dispatch context prop type s) as [[[]|e] s1].
Qed.

End DispatchFacts.

(** C1. The switch over the text of a declaration's type has no [break]: a
    declaration of type [string] fills the cache entries of String, Number,
    Boolean and Symbol with instances built from that one declaration, a
    [number] one fills Number, Boolean and Symbol, a [boolean] one Boolean
    and Symbol, a [symbol] one Symbol alone; entries of earlier kinds are
    left as they were. The entries are there after the whole declaration
    node has been searched, and a fixture made of a single [string]
    declaration loads all four kinds from it. *)
Theorem dispatch_falls_through (context : TypeScriptContext) (prop : HostNode) (s : State) :
  (let s' := (dispatch context prop (Some "string") s).2 in
   populatedFrom context prop TypeKind.String s'
   /\ populatedFrom context prop TypeKind.Number s'
   /\ populatedFrom context prop TypeKind.Boolean s'
   /\ populatedFrom context prop TypeKind.Symbol s')
  /\ (let s' := (dispatch context prop (Some "number") s).2 in
      populatedFrom context prop TypeKind.Number s'
      /\ populatedFrom context prop TypeKind.Boolean s'
      /\ populatedFrom context prop TypeKind.Symbol s'
      /\ cache s'.1 !! TypeKind.String = cache s.1 !! TypeKind.String)
  /\ (let s' := (dispatch context prop (Some "boolean") s).2 in
      populatedFrom context prop TypeKind.Boolean s'
      /\ populatedFrom context prop TypeKind.Symbol s'
      /\ cache s'.1 !! TypeKind.String = cache s.1 !! TypeKind.String
      /\ cache s'.1 !! TypeKind.Number = cache s.1 !! TypeKind.Number)
  /\ (let s' := (dispatch context prop (Some "symbol") s).2 in
      populatedFrom context prop TypeKind.Symbol s'
      /\ cache s'.1 !! TypeKind.String = cache s.1 !! TypeKind.String
      /\ cache s'.1 !! TypeKind.Number = cache s.1 !! TypeKind.Number
      /\ cache s'.1 !! TypeKind.Boolean = cache s.1 !! TypeKind.Boolean)
  /\ (forall text children k,
        k ∈ entered text cases ->
        is_Some (cache (search context (VariableDeclaration prop (Some text) children) s).2.1 !! k))
  /\ (fixture context = [VariableDeclaration prop (Some "string") []] ->
      cached s.1 = false ->
      forall k, k ∈ [TypeKind.String; TypeKind.Number; TypeKind.Boolean; TypeKind.Symbol] ->
      populatedFrom context prop k (ensureLoadBuiltInTypes context s).2).
Proof.
  split; [apply dispatch_string|].
  split; [apply dispatch_number|].
  split; [apply dispatch_boolean|].
  split; [apply dispatch_symbol|].
  split; [intros text children k; apply search_declaration_present|].
  intros Hfix Hfresh k Hk.
  rewrite ensureLoad_fresh, Hfix, forEachChild_single by done.
  match goal with |- context [dispatch _ _ _ ?s0] =>
    destruct (dispatch_string context prop s0) as (H1 & H2 & H3 & H4) end.
  repeat (apply elem_of_cons in Hk as [->|Hk]; [done|]).
  by apply elem_of_nil in Hk.
Qed.

(** ** Calls of [getTypeByKind] *)

Section RepositoryFacts.

Variable context : TypeScriptContext.

(** Loading sets the flag; it creates the fixture program when, and only
    when, the flag was not set. *)
Lemma ensureLoad_state (s : State) :
  let s' := (ensureLoadBuiltInTypes context s).2 in
  cached s'.1 = true
  /\ compiles s'.2 = (if cached s.1 then compiles s.2 else S (compiles s.2)).
Proof.
  destruct (cached s.1) eqn:Hc.
  - by rewrite ensureLoad_cached.
  - rewrite ensureLoad_fresh by done.
    match goal with |- context [forEachChild _ _ ?s0] =>
      destruct (steady_forEachChild context (fixture context) s0)
        as (Hflag & (_ & Hcomp & _) & _) end.
    simpl in *. by rewrite Hflag, Hcomp.
Qed.

(** The assertion comes first and the three singletons need no loading. *)
Lemma getTypeByKind_Other (s : State) :
  getTypeByKind context TypeKind.Other s =
    (Throw (AssertionError CannotSpecifyOther), s).
Proof. reflexivity. Qed.

Lemma getTypeByKind_Any (s : State) :
  getTypeByKind context TypeKind.Any s = (Return anyType, s).
Proof. reflexivity. Qed.

Lemma getTypeByKind_Null (s : State) :
  getTypeByKind context TypeKind.Null s = (Return nullType, s).
Proof. reflexivity. Qed.

Lemma getTypeByKind_Undefined (s : State) :
  getTypeByKind context TypeKind.Undefined s = (Return undefinedType, s).
Proof. reflexivity. Qed.

(** A scalar kind after loading: the cache entry, or a failed assertion. *)
Lemma getTypeByKind_scalar k (s : State) :
  scalar k ->
  getTypeByKind context k s =
    match ensureLoadBuiltInTypes context s with
    | (Return _, s') =>
        match cache s'.1 !! k with
        | Some res => (Return res, s')
        | None => (Throw (AssertionError (NotFound k)), s')
        end
    | (Throw e, s') => (Throw e, s')
    end.
Proof.
  intros [-> | [-> | [-> | ->]]]; cbv [getTypeByKind bind]; simpl;
    destruct (ensureLoadBuiltInTypes context s) as [[[]|e] s']; try done;
    cbv [cache_get_assert bind get ret throw]; by destruct (cache s'.1 !! _).
Qed.

(** [Object] and [Function] reach the [default] of the switch. *)
Lemma getTypeByKind_unexpected k (s : State) :
  k = TypeKind.Object \/ k = TypeKind.Function ->
  getTypeByKind context k s =
    match ensureLoadBuiltInTypes context s with
    | (Return _, s') => (Throw (Error (UnexpectedTypeKind k)), s')
    | (Throw e, s') => (Throw e, s')
    end.
Proof.
  intros [-> | ->]; cbv [getTypeByKind bind]; simpl;
    by destruct (ensureLoadBuiltInTypes context s) as [[[]|e] s'].
Qed.

(** The state after a call: untouched, or loaded by this very call. *)
Lemma getTypeByKind_state k (s : State) :
  (getTypeByKind context k s).2 = s
  \/ cached s.1 = false
     /\ (getTypeByKind context k s).2 = (ensureLoadBuiltInTypes context s).2.
Proof.
  destruct (cached s.1) eqn:Hc.
  - left. destruct k; try done.
    all: try (rewrite getTypeByKind_scalar by (unfold scalar; tauto);
              rewrite ensureLoad_cached by done; by destruct (cache s.1 !! _)).
    all: rewrite getTypeByKind_unexpected by tauto;
         by rewrite ensureLoad_cached by done.
  - destruct k; try (by left); right; split; try done.
    all: try (rewrite getTypeByKind_scalar by (unfold scalar; tauto);
              destruct (ensureLoadBuiltInTypes context s) as [[[]|e] s']; [|done];
              by destruct (cache s'.1 !! _)).
    all: rewrite getTypeByKind_unexpected by tauto;
         by destruct (ensureLoadBuiltInTypes context s) as [[[]|e] s'].
Qed.

Lemma getTypeByKind_cached k (s : State) :
  cached s.1 = true -> (getTypeByKind context k s).2 = s.
Proof.
  intros Hc. destruct (getTypeByKind_state k s) as [H|[H _]]; [done|congruence].
Qed.

(** Once the flag is set, calls change nothing. *)
Lemma calls_cached ks (s : State) : cached s.1 = true -> calls context ks s = s.
Proof.
  intros Hc. induction ks as [|k ks IH]; simpl; [done|].
  by rewrite getTypeByKind_cached.
Qed.

Lemma calls_compiles ks (s : State) :
  (compiles (calls context ks s).2 <= if cached s.1 then compiles s.2 else S (compiles s.2))%nat.
Proof.
  revert s. induction ks as [|k ks IH]; intros s; simpl.
  - destruct (cached s.1); lia.
  - destruct (getTypeByKind_state k s) as [->|[Hc ->]]; [apply IH|].
    destruct (ensureLoad_state s) as [Hflag Hcomp]. rewrite Hc in *.
    rewrite calls_cached by done. lia.
Qed.

(** A call that returns a scalar type leaves the flag set and the type in
    the cache. *)
Lemma getTypeByKind_returned k t (s s1 : State) :
  scalar k ->
  getTypeByKind context k s = (Return t, s1) ->
  cached s1.1 = true /\ cache s1.1 !! k = Some t.
Proof.
  intros Hk. rewrite getTypeByKind_scalar by done.
  pose proof (ensureLoad_state s) as [Hflag _].
  destruct (ensureLoadBuiltInTypes context s) as [[[]|e] s']; [|done].
  destruct (cache s'.1 !! k) eqn:Hget; [|done]. by intros [= <- <-].
Qed.

Lemma getTypeByKind_again k t (s s1 : State) ks :
  getTypeByKind context k s = (Return t, s1) ->
  getTypeByKind context k (calls context ks s1) = (Return t, calls context ks s1).
Proof.
  intros Hcall. destruct k; try done.
  all: try (match type of Hcall with
            | getTypeByKind _ ?k _ = _ =>
                destruct (getTypeByKind_returned k t s s1
                            ltac:(unfold scalar; tauto) Hcall) as [Hflag Hget]
            end;
            rewrite calls_cached by done;
            rewrite getTypeByKind_scalar by (unfold scalar; tauto);
            rewrite ensureLoad_cached by done; by rewrite Hget).
  - rewrite getTypeByKind_Any in Hcall. rewrite getTypeByKind_Any.
    by injection Hcall as <- <-.
  - rewrite getTypeByKind_Undefined in Hcall. rewrite getTypeByKind_Undefined.
    by injection Hcall as <- <-.
  - rewrite getTypeByKind_Null in Hcall. rewrite getTypeByKind_Null.
    by injection Hcall as <- <-.
  - rewrite getTypeByKind_unexpected in Hcall by tauto.
    by destruct (ensureLoadBuiltInTypes context s) as [[[]|e] s'].
  - rewrite getTypeByKind_unexpected in Hcall by tauto.
    by destruct (ensureLoadBuiltInTypes context s) as [[[]|e] s'].
Qed.

End RepositoryFacts.

(** C1, at a fixture whose only declaration is of type [string]: the
    Symbol entry is built from it. *)
Lemma dispatch_falls_through_witness :
  let context := sampleContext [VariableDeclaration 12%nat (Some "string") []] in
  populatedFrom context 12%nat TypeKind.Symbol
    (ensureLoadBuiltInTypes context (newRepository, emptyWorld)).2.
Proof.
  apply (proj2 (proj2 (proj2 (proj2 (proj2
           (dispatch_falls_through
              (sampleContext [VariableDeclaration 12%nat (Some "string") []]) 12%nat
              (newRepository, emptyWorld))))))).
  - reflexivity.
  - reflexivity.
  - repeat constructor.
Defined.

(** C8 as stated fails: [Object] is not [Other], yet the host-backed
    repository throws on it, and the stub throws on [Symbol]. *)
Lemma getTypeByKind_not_total :
  TypeKind.Object <> TypeKind.Other
  /\ (getTypeByKind (sampleContext typeProvider) TypeKind.Object
        (newRepository, emptyWorld)).1
     = Throw (Error (UnexpectedTypeKind TypeKind.Object))
  /\ TypeKind.Symbol <> TypeKind.Other
  /\ Stub.getTypeByKind TypeKind.Symbol
     = Throw (Error (UnknownTypeKind TypeKind.Symbol)).
Proof.
  split; [discriminate|]. split; [vm_compute; reflexivity|].
  split; [discriminate|reflexivity].
Qed.

(** C9. The memo fields of a [TypeScriptType] instance are filled by the
    first access and never change afterwards: once [members] has answered
    with a table, it answers with that very table after any further reads
    of the getters of any instances and of the types of symbols, and so
    does [callSignatures] with its array. A repository created fresh creates the fixture program
    at most once, however it is called, and once [getTypeByKind] has
    answered a kind with a type it answers that kind with the same type
    after any further calls. *)
Theorem lazy_caches_stable (context : TypeScriptContext) :
  (forall (this : ref) w st w1 l,
      (this < nextRef w)%nat ->
      members context this w = (Return st, w1) ->
      members context this (accesses context l w1) = (Return st, accesses context l w1))
  /\ (forall (this : ref) w a w1 l,
        (this < nextRef w)%nat ->
        callSignatures context this w = (Return a, w1) ->
        callSignatures context this (accesses context l w1)
        = (Return a, accesses context l w1))
  /\ (forall ks w,
        (compiles (calls context ks (newRepository, w)).2 <= S (compiles w))%nat)
  /\ (forall k t s s1 ks,
        getTypeByKind context k s = (Return t, s1) ->
        getTypeByKind context k (calls context ks s1)
        = (Return t, calls context ks s1)).
Proof.
  repeat split.
  - intros this w st w1 l Hlt Hfirst. apply members_memo.
    apply accesses_keep_members. by eapply members_fills.
  - intros this w a w1 l Hlt Hfirst. apply callSignatures_memo.
    apply accesses_keep_callSignatures. by eapply callSignatures_fills.
  - intros ks w. apply (calls_compiles context ks (newRepository, w)).
  - intros k t s s1 ks. apply getTypeByKind_again.
Qed.

(** C9 at the one-instance world: [members], then [callSignatures], the
    type of a member and [members] again, then [members] once more. *)
Lemma lazy_caches_stable_witness :
  let context := sampleContext [] in
  let first := members context 0%nat oneInstance in
  let later := accesses context
                 [ GetCallSignatures 0%nat;
                   GetType {| tsSymbol := 1%nat; symbolNode := 7%nat |};
                   GetMembers 0%nat ] first.2 in
  members context 0%nat later
  = (Return {| tableRef := 1%nat;
               symbols := [ {| tsSymbol := 1%nat; symbolNode := 7%nat |};
                            {| tsSymbol := 2%nat; symbolNode := 7%nat |} ] |},
     later).
Proof.
  apply (proj1 (lazy_caches_stable (sampleContext [])) 0%nat oneInstance).
  - simpl. lia.
  - vm_compute. reflexivity.
Defined.

(** ** The rule table, operator by operator *)
Section CheckerClaims.

Import Checker.

(** C3. A [+] expression reports nothing of its own exactly when both
    operands are numbers, or one is a string, or one is [any]; otherwise
    it reports one diagnostic, the "cannot be applied" message with the
    names of the two operand types, on the range of the whole expression.
    ["1 + true"] yields that diagnostic on [0, 8). *)
Theorem plus_rule (resultType : BinaryOperator -> Type_ -> Type_ -> Type_)
    (l r : Expression) (s e : Z) (scope : SymbolTable) :
  let tl := (typeOf resultType l scope).2 in
  let tr := (typeOf resultType r scope).2 in
  let own := operatorDiagnostics Add l r s e tl tr in
  let valid :=
    (kind tl = TypeKind.Number /\ kind tr = TypeKind.Number)
    \/ (kind tl = TypeKind.String \/ kind tr = TypeKind.String)
    \/ (kind tl = TypeKind.Any \/ kind tr = TypeKind.Any) in
  checkExpression resultType (BinaryExpression Add l r s e) scope
    = own ++ checkExpression resultType l scope ++ checkExpression resultType r scope
  /\ (own = [] <-> valid)
  /\ (~ valid ->
      own = [ {| message := "The binary operator '+' cannot be applied to type '"
                              +:+ name tl +:+ "' and '" +:+ name tr +:+ "'";
                 start := s; end_ := e |} ])
  /\ checkExpression resultType
       (BinaryExpression Add (Literal BuiltIn.number 0 1) (Literal BuiltIn.boolean 4 8) 0 8) []
     = [ {| message := "The binary operator '+' cannot be applied to type 'number' and 'boolean'";
            start := 0; end_ := 8 |} ].
Proof.
  intros tl tr own valid. split; [apply checkExpression_binary|].
  assert (Hown : own = if plusValid tl tr then []
                       else [ {| message := cannotApplyPlus tl tr; start := s; end_ := e |} ])
    by reflexivity.
  pose proof (plusValid_spec tl tr) as Hspec. fold valid in Hspec.
  split; [|split].
  - rewrite Hown. destruct (plusValid tl tr).
    + split; [intros _; by apply Hspec | done].
    + split; [done | intros Hv; apply Hspec in Hv; done].
  - intros Hnot. rewrite Hown. destruct (plusValid tl tr); [|done].
    destruct Hnot. by apply Hspec.
  - reflexivity.
Qed.

Lemma plus_rule_witness :
  operatorDiagnostics Add (Literal BuiltIn.number 0 1) (Literal BuiltIn.boolean 4 8) 0 8
    BuiltIn.number BuiltIn.boolean
  = [ {| message := "The binary operator '+' cannot be applied to type 'number' and 'boolean'";
         start := 0; end_ := 8 |} ].
Proof.
  apply (proj1 (proj2 (proj2
           (plus_rule sampleResult (Literal BuiltIn.number 0 1) (Literal BuiltIn.boolean 4 8)
              0 8 [])))).
  cbv. intros [[_ H]|[[H|H]|[H|H]]]; discriminate.
Defined.

(** C4. For [*], [/] and [-] each operand must be a number or [any]; an
    operand that is not is reported by a diagnostic on that operand's own
    range, the left one first. ["true - 42"] yields one diagnostic, on
    [0, 4). *)
Theorem arithmetic_rule (resultType : BinaryOperator -> Type_ -> Type_ -> Type_)
    (op : BinaryOperator) (l r : Expression) (s e : Z) (scope : SymbolTable) :
  op = Mul \/ op = Div \/ op = Sub ->
  let tl := (typeOf resultType l scope).2 in
  let tr := (typeOf resultType r scope).2 in
  (exists dl dr,
      checkExpression resultType (BinaryExpression op l r s e) scope
        = (dl ++ dr) ++ checkExpression resultType l scope
            ++ checkExpression resultType r scope
      /\ (kind tl = TypeKind.Number \/ kind tl = TypeKind.Any -> dl = [])
      /\ (~ (kind tl = TypeKind.Number \/ kind tl = TypeKind.Any) ->
          dl = [ {| message := "The left-hand side of a binary operator '"
                                 +:+ operatorText op
                                 +:+ "' must be of type 'number' or 'any'";
                    start := (range l).1; end_ := (range l).2 |} ])
      /\ (kind tr = TypeKind.Number \/ kind tr = TypeKind.Any -> dr = [])
      /\ (~ (kind tr = TypeKind.Number \/ kind tr = TypeKind.Any) ->
          dr = [ {| message := "The right-hand side of a binary operator '"
                                 +:+ operatorText op
                                 +:+ "' must be of type 'number' or 'any'";
                    start := (range r).1; end_ := (range r).2 |} ]))
  /\ checkExpression resultType
       (BinaryExpression Sub (Literal BuiltIn.boolean 0 4) (Literal BuiltIn.number 7 9) 0 9) []
     = [ {| message := "The left-hand side of a binary operator '-' must be of type 'number' or 'any'";
            start := 0; end_ := 4 |} ].
Proof.
  intros Hop tl tr. split; [|reflexivity].
  exists (require (isKind TypeKind.Number tl || isKind TypeKind.Any tl) l (arithmeticLeft op)),
         (require (isKind TypeKind.Number tr || isKind TypeKind.Any tr) r (arithmeticRight op)).
  split; [rewrite checkExpression_binary; by destruct Hop as [-> | [-> | ->]]|].
  repeat split.
  - intros H. by apply require_ok, either_kind.
  - intros H. by apply require_violated, neither_kind.
  - intros H. by apply require_ok, either_kind.
  - intros H. by apply require_violated, neither_kind.
Qed.

Lemma arithmetic_rule_witness :
  checkExpression sampleResult
    (BinaryExpression Sub (Literal BuiltIn.boolean 0 4) (Literal BuiltIn.number 7 9) 0 9) []
  = [ {| message := "The left-hand side of a binary operator '-' must be of type 'number' or 'any'";
         start := 0; end_ := 4 |} ].
Proof.
  apply (proj2 (arithmetic_rule sampleResult Sub
                  (Literal BuiltIn.boolean 0 4) (Literal BuiltIn.number 7 9) 0 9 []
                  (or_intror (or_intror eq_refl)))).
Defined.

(** C5. [instanceof] checks its two operands independently: the left one
    must be an object or [any], the right one a function or [any]; each
    violation is reported on its own operand's range, both can be
    reported for one expression, and an object on the left of a function
    reports nothing. *)
Theorem instanceof_rule (resultType : BinaryOperator -> Type_ -> Type_ -> Type_)
    (l r : Expression) (s e : Z) (scope : SymbolTable) :
  let tl := (typeOf resultType l scope).2 in
  let tr := (typeOf resultType r scope).2 in
  (exists dl dr,
      checkExpression resultType (BinaryExpression InstanceOf l r s e) scope
        = (dl ++ dr) ++ checkExpression resultType l scope
            ++ checkExpression resultType r scope
      /\ (kind tl = TypeKind.Object \/ kind tl = TypeKind.Any -> dl = [])
      /\ (~ (kind tl = TypeKind.Object \/ kind tl = TypeKind.Any) ->
          dl = [ {| message := "The left-hand side of 'instanceof' must be of type 'any' or 'object'";
                    start := (range l).1; end_ := (range l).2 |} ])
      /\ (kind tr = TypeKind.Function \/ kind tr = TypeKind.Any -> dr = [])
      /\ (~ (kind tr = TypeKind.Function \/ kind tr = TypeKind.Any) ->
          dr = [ {| message := "The right-hand side of 'instanceof' must be of type 'any' or 'Function'";
                    start := (range r).1; end_ := (range r).2 |} ]))
  /\ (kind tl = TypeKind.Object -> kind tr = TypeKind.Function ->
      operatorDiagnostics InstanceOf l r s e tl tr = [])
  /\ checkExpression resultType
       (BinaryExpression InstanceOf (Identifier "foo" 0 3) (Identifier "Bar" 15 18) 0 18)
       [ {| symbolName := "foo"; type := {| name := "Bar"; kind := TypeKind.Object |} |};
         {| symbolName := "Bar"; type := {| name := "typeof Bar"; kind := TypeKind.Function |} |} ]
     = []
  /\ checkExpression resultType
       (BinaryExpression InstanceOf (Literal BuiltIn.number 0 3) (Identifier "bar" 15 18) 0 18)
       [ {| symbolName := "bar"; type := {| name := "Bar"; kind := TypeKind.Object |} |} ]
     = [ {| message := "The left-hand side of 'instanceof' must be of type 'any' or 'object'";
            start := 0; end_ := 3 |};
         {| message := "The right-hand side of 'instanceof' must be of type 'any' or 'Function'";
            start := 15; end_ := 18 |} ].
Proof.
  intros tl tr. split; [|split; [|split; reflexivity]].
  - exists (require (isKind TypeKind.Object tl || isKind TypeKind.Any tl) l instanceofLeft),
           (require (isKind TypeKind.Function tr || isKind TypeKind.Any tr) r instanceofRight).
    split; [by rewrite checkExpression_binary|]. repeat split.
    + intros H. by apply require_ok, either_kind.
    + intros H. by apply require_violated, neither_kind.
    + intros H. by apply require_ok, either_kind.
    + intros H. by apply require_violated, neither_kind.
  - intros Hl Hr. simpl. rewrite !require_ok; [done| |].
    + apply either_kind. by left.
    + apply either_kind. by left.
Qed.

Lemma instanceof_rule_witness :
  operatorDiagnostics InstanceOf (Identifier "foo" 0 3) (Identifier "Bar" 15 18) 0 18
    {| name := "Bar"; kind := TypeKind.Object |}
    {| name := "typeof Bar"; kind := TypeKind.Function |}
  = [].
Proof.
  apply (proj1 (proj2
           (instanceof_rule sampleResult (Identifier "foo" 0 3) (Identifier "Bar" 15 18) 0 18
              [ {| symbolName := "foo"; type := {| name := "Bar"; kind := TypeKind.Object |} |};
                {| symbolName := "Bar";
                   type := {| name := "typeof Bar"; kind := TypeKind.Function |} |} ])));
    reflexivity.
Defined.

(** C7. The equality operators report nothing of their own, whatever the
    types of their operands; ["12 === {}"] yields no diagnostic, whatever
    type the object literal is given. *)
Theorem equality_rule (resultType : BinaryOperator -> Type_ -> Type_ -> Type_)
    (op : BinaryOperator) (l r : Expression) (s e : Z) (scope : SymbolTable) :
  op = StrictEqual \/ op = StrictNotEqual \/ op = Equal \/ op = NotEqual ->
  (forall tl tr, operatorDiagnostics op l r s e tl tr = [])
  /\ checkExpression resultType (BinaryExpression op l r s e) scope
     = checkExpression resultType l scope ++ checkExpression resultType r scope
  /\ (forall object,
        checkExpression resultType
          (BinaryExpression StrictEqual (Literal BuiltIn.number 0 2) (Literal object 7 9) 0 9)
          scope
        = []).
Proof.
  intros Hop. split; [|split].
  - intros tl tr. by destruct Hop as [-> | [-> | [-> | ->]]].
  - rewrite checkExpression_binary. by destruct Hop as [-> | [-> | [-> | ->]]].
  - reflexivity.
Qed.

Lemma equality_rule_witness :
  checkExpression sampleResult
    (BinaryExpression StrictEqual (Literal BuiltIn.number 0 2)
       (Literal {| name := "Object"; kind := TypeKind.Other |} 7 9) 0 9) []
  = [].
Proof.
  rewrite (proj1 (proj2
             (equality_rule sampleResult StrictEqual (Literal BuiltIn.number 0 2)
                (Literal {| name := "Object"; kind := TypeKind.Other |} 7 9) 0 9 []
                (or_introl eq_refl)))).
  reflexivity.
Defined.









End CheckerClaims.

(** * Further properties of the adapter and of the stub *)

(** ** Classification *)

Lemma firstMatch_inversion tests flags k :
  firstMatch tests flags = k ->
  (k = TypeKind.Other /\ Forall (fails flags) tests)
  \/ (exists pre m post,
        tests = pre ++ (m, k) :: post
        /\ Forall (fails flags) pre
        /\ truthy (flags .& m) = true).
Proof.
  revert k. induction tests as [|[m k'] tests IH]; intros k; simpl.
  - intros <-. left. by split.
  - destruct (truthy (flags .& m)) eqn:Hm.
    + intros <-. right. exists [], m, tests. by repeat split.
    + intros Hk. destruct (IH k Hk) as [[-> Hall]|(pre & m' & post & -> & Hpre & Hm')].
      * left. split; [done|]. by constructor.
      * right. exists ((m, k') :: pre), m', post. repeat split; [|done].
        by constructor.
Qed.

(** X1. From the kind back to the flags: a kind other than [Other] is only
    answered when the flags pass the test of that kind and fail every test
    before it in the precedence order, and [Other] only when they fail all
    seven tests. *)
Theorem kind_inversion (tf : TypeFlags.t) (flags : Z) (k : TypeKind.t) :
  kind tf flags = k ->
  (k = TypeKind.Other /\ Forall (fails flags) (precedence tf))
  \/ (k <> TypeKind.Other
      /\ exists pre m post,
           precedence tf = pre ++ (m, k) :: post
           /\ Forall (fails flags) pre
           /\ truthy (flags .& m) = true).
Proof.
  intros Hk. rewrite kind_firstMatch in Hk.
  destruct (firstMatch_inversion _ _ _ Hk) as [H|(pre & m & post & Hsplit & Hpre & Hm)];
    [by left|].
  destruct (decide (k = TypeKind.Other)) as [->|Hne];
    [|right; split; [done|]; by exists pre, m, post].
  exfalso. assert (Hin : (m, TypeKind.Other) ∈ precedence tf).
  { rewrite Hsplit. apply elem_of_app. right. apply elem_of_cons. by left. }
  unfold precedence in Hin.
  repeat (apply elem_of_cons in Hin as [Hin|Hin]; [discriminate|]).
  by apply elem_of_nil in Hin.
Qed.

(** X1 at the flags of a null type in the sample layout. *)
Lemma kind_inversion_witness :
  (TypeKind.Null = TypeKind.Other /\ Forall (fails 4096) (precedence TypeFlags.ts2))
  \/ (TypeKind.Null <> TypeKind.Other
      /\ exists pre m post,
           precedence TypeFlags.ts2 = pre ++ (m, TypeKind.Null) :: post
           /\ Forall (fails 4096) pre
           /\ truthy (4096 .& m) = true).
Proof. apply (kind_inversion TypeFlags.ts2 4096 TypeKind.Null). reflexivity. Defined.

Lemma ToInt32_wraps x n : ToInt32 (x + n * 2 ^ 32) = ToInt32 x.
Proof.
  unfold ToInt32. replace (x + n * 2 ^ 32 + 2 ^ 31) with (x + 2 ^ 31 + n * 2 ^ 32) by lia.
  by rewrite Z.mod_add.
Qed.

(** X2. The classification reads the flags through JavaScript's 32-bit
    operators: flags that differ by a multiple of 2^32 get the same kind. *)
Theorem kind_low_32_bits (tf : TypeFlags.t) (flags n : Z) :
  kind tf (flags + n * 2 ^ 32) = kind tf flags.
Proof. unfold kind, band. by rewrite !ToInt32_wraps. Qed.

(** ** Names *)

Lemma orElse_nonempty a b : b <> EmptyString -> orElse a b <> EmptyString.
Proof. by destruct a. Qed.

(** X3. The display name of a type is its symbol's name when it has a
    symbol; without one it is what [typeToString] prints, and
    ["<anonymous>"] when that is the empty string, so it is never empty.
    An empty name can only come from a symbol with an empty name. *)
Theorem TypeScriptType_name_fallback (names : HostNames) (o : TypeScriptType) :
  (forall sym,
      symbol names (tsType o) = Some sym ->
      TypeScriptType_name names o = symbol_name names sym)
  /\ (symbol names (tsType o) = None ->
      TypeScriptType_name names o <> EmptyString
      /\ (typeToString names (tsType o) = EmptyString ->
          TypeScriptType_name names o = "<anonymous>")
      /\ (typeToString names (tsType o) <> EmptyString ->
          TypeScriptType_name names o = typeToString names (tsType o)))
  /\ (TypeScriptType_name names o = EmptyString ->
      exists sym, symbol names (tsType o) = Some sym /\ symbol_name names sym = EmptyString).
Proof.
  unfold TypeScriptType_name. destruct (symbol names (tsType o)) as [sym|].
  - split; [by intros ? [= <-]|]. split; [done|]. intros H. by exists sym.
  - split; [done|]. split.
    + intros _. split; [by apply orElse_nonempty|]. split.
      * by intros ->.
      * intros Hne. by destruct (typeToString names (tsType o)).
    + intros H. by apply orElse_nonempty in H.
Qed.

(** X3 at a type without symbol that prints as the empty string. *)
Lemma TypeScriptType_name_fallback_witness :
  TypeScriptType_name sampleNames
    {| tsType := 0%nat; node := 7%nat; _members := None; _callSignatures := None |}
  = "<anonymous>".
Proof.
  apply (proj1 (proj2 (TypeScriptType_name_fallback sampleNames
           {| tsType := 0%nat; node := 7%nat;
              _members := None; _callSignatures := None |}))); reflexivity.
Defined.

(** ** The stub repository *)

(** X4. The stub answers a kind with a Type of that kind: whenever
    [getTypeByKind] returns, the [kind] field of the result is the kind
    that was asked for. *)
Theorem Stub_getTypeByKind_kind (k : TypeKind.t) (t : Stub.Type_) :
  Stub.getTypeByKind k = Return t -> Stub_kind t = k.
Proof. destruct k; simpl; intros [= <-]; reflexivity. Qed.

Lemma Stub_getTypeByKind_kind_witness :
  Stub_kind Stub.boolean = TypeKind.Boolean.
Proof. apply (Stub_getTypeByKind_kind TypeKind.Boolean Stub.boolean). reflexivity. Defined.

(** ** What the getters build *)
Section GetterFacts.

Variable context : TypeScriptContext.

Lemma newTypeScriptType_eq type n w :
  newTypeScriptType type n w =
    (Return (Instance (nextRef w)),
     {| heap := <[nextRef w := {| tsType := type; node := n;
                                  _members := None; _callSignatures := None |}]> (heap w);
        nextRef := S (nextRef w);
        compiles := compiles w |}).
Proof. reflexivity. Qed.

Lemma instanceWithin_instanceOf lo hi w t type n :
  instanceWithin lo hi w t type n -> instanceOf w t type n.
Proof. intros (r & -> & _ & Hr). by exists r. Qed.

Lemma instanceWithin_stable n :
  stable (fun lo hi w t (type : HostType) => instanceWithin lo hi w t type n).
Proof.
  intros lo hi lo' hi' w w' t type (r & -> & Hr & Hheap) Hlo Hhi Hbound (_ & _ & Hsame).
  exists r. split; [done|]. split; [lia|]. rewrite Hsame; [done|lia].
Qed.

Lemma signatureWithin_stable n : stable (signatureWithin context n).
Proof.
  intros lo hi lo' hi' w w' sig s [Hargs Hret] Hlo Hhi Hbound Hext. split.
  - eapply Forall2_impl; [done|]. intros t p Ht. simpl in Ht.
    by eapply (instanceWithin_stable n lo hi lo' hi' w w' t
                 (getTypeOfSymbolAtLocation context p n)).
  - by eapply (instanceWithin_stable n lo hi lo' hi' w w').
Qed.

(** Mapping an allocating callback over a list: every result is among the
    objects allocated by the whole map. *)
Lemma mapM_allocates {A B} (f : A -> M World B)
    (R : ref -> ref -> World -> B -> A -> Prop) xs w :
  stable R ->
  (forall a w, exists b w',
      f a w = (Return b, w') /\ extends w w' /\ R (nextRef w) (nextRef w') w' b a) ->
  exists bs w',
    mapM f xs w = (Return bs, w')
    /\ extends w w'
    /\ Forall2 (R (nextRef w) (nextRef w') w') bs xs.
Proof.
  intros HR Hf. revert w. induction xs as [|x xs IH]; intros w; simpl.
  - exists [], w. split; [done|]. split; [apply extends_refl | constructor].
  - unfold bind. destruct (Hf x w) as (b & w1 & -> & Hext1 & Hb).
    destruct (IH w1) as (bs & w' & -> & Hext & Hbs).
    exists (b :: bs), w'. split; [done|].
    split; [by eapply extends_trans|].
    destruct Hext1 as (Hn1 & ?), Hext as (Hn & ?).
    constructor.
    + eapply HR; [exact Hb|lia..|done].
    + eapply Forall2_impl; [done|]. intros b' a' Hb'.
      eapply HR; [exact Hb'|lia..|apply extends_refl].
Qed.

Lemma newTypeScriptType_allocates (f : HostSymbol -> HostType) n p w :
  exists t w',
    newTypeScriptType (f p) n w = (Return t, w')
    /\ extends w w'
    /\ instanceWithin (nextRef w) (nextRef w') w' t (f p) n.
Proof.
  eexists _, _. split; [apply newTypeScriptType_eq|].
  split; [apply (allocating_newTypeScriptType (f p) n w)|].
  exists (nextRef w). simpl. split; [done|]. split; [lia|]. apply lookup_insert_eq.
Qed.

Lemma makeSignature_allocates n s w :
  exists sig w',
    makeSignature context n s w = (Return sig, w')
    /\ extends w w'
    /\ signatureWithin context n (nextRef w) (nextRef w') w' sig s.
Proof.
  unfold makeSignature, bind.
  destruct (mapM_allocates
              (fun p => newTypeScriptType (getTypeOfSymbolAtLocation context p n) n)
              (fun lo hi w t p =>
                 instanceWithin lo hi w t (getTypeOfSymbolAtLocation context p n) n)
              (getParameters context s) w)
    as (args & w1 & -> & Hext1 & Hargs).
  { intros lo hi lo' hi' w0 w0' t p. apply (instanceWithin_stable n). }
  { intros p w0.
    apply (newTypeScriptType_allocates (fun p => getTypeOfSymbolAtLocation context p n)). }
  rewrite newTypeScriptType_eq. eexists _, _. split; [done|].
  pose proof (allocating_newTypeScriptType (getReturnType context s) n w1) as [Hext2 _].
  rewrite newTypeScriptType_eq in Hext2. simpl in Hext2.
  split; [by eapply extends_trans|]. split; simpl.
  - eapply Forall2_impl; [done|]. intros t p Ht. simpl in Ht.
    eapply (instanceWithin_stable n); [exact Ht|lia..|done].
  - exists (nextRef w1). split; [done|]. destruct Hext1 as (Hle & _).
    split; [lia|]. apply lookup_insert_eq.
Qed.

End GetterFacts.

(** X5. The type of a symbol is not memoized: two reads give two different
    instances of the same host type at the same anchor, and so the member
    tables of the two, equal in content, are two different objects. *)
Theorem TypeScriptSymbol_type_fresh (context : TypeScriptContext)
    (sym : TypeScriptSymbol) (w : World) :
  let type := getTypeOfSymbolAtLocation context (tsSymbol sym) (symbolNode sym) in
  exists (r1 r2 : ref) w1 w2,
    TypeScriptSymbol_type context sym w = (Return (Instance r1), w1)
    /\ TypeScriptSymbol_type context sym w1 = (Return (Instance r2), w2)
    /\ r1 <> r2
    /\ instanceOf w2 (Instance r1) type (symbolNode sym)
    /\ instanceOf w2 (Instance r2) type (symbolNode sym)
    /\ exists st1 st2 w3 w4,
         members context r1 w2 = (Return st1, w3)
         /\ members context r2 w3 = (Return st2, w4)
         /\ symbols st1 = symbols st2
         /\ tableRef st1 <> tableRef st2.
Proof.
  intros type. unfold TypeScriptSymbol_type. fold type.
  rewrite newTypeScriptType_eq.
  eexists (nextRef w), (S (nextRef w)), _, _. split; [done|].
  rewrite newTypeScriptType_eq. simpl. split; [done|]. split; [lia|].
  split; [|split].
  - eexists. split; [done|]. simpl. rewrite lookup_insert_ne by lia.
    apply lookup_insert_eq.
  - eexists. split; [done|]. simpl. apply lookup_insert_eq.
  - rewrite members_eq. simpl.
    rewrite lookup_insert_ne, lookup_insert_eq by lia. simpl.
    eexists _, _, _, _. split; [done|].
    rewrite members_eq. simpl.
    rewrite lookup_alter_ne, lookup_insert_eq by lia. simpl.
    split; [done|]. split; [done|]. simpl. lia.
Qed.

(** X6. The first read of [members] lists the host type's properties, in
    their order, each as a symbol anchored at the node of the instance; and
    the type of any of these members, whenever it is read, is an instance
    of what the host resolves for that property at that same node. *)
Theorem members_of_host_properties (context : TypeScriptContext)
    (this : ref) (o : TypeScriptType) (w : World) :
  heap w !! this = Some o ->
  _members o = None ->
  exists st w1,
    members context this w = (Return st, w1)
    /\ map tsSymbol (symbols st) = getProperties context (tsType o)
    /\ Forall (fun sym => symbolNode sym = node o) (symbols st)
    /\ forall sym w',
         sym ∈ symbols st ->
         exists t w'',
           TypeScriptSymbol_type context sym w' = (Return t, w'')
           /\ instanceOf w'' t
                (getTypeOfSymbolAtLocation context (tsSymbol sym) (node o)) (node o).
Proof.
  intros Ho Hm. rewrite members_eq, Ho, Hm. simpl. eexists _, _. split; [done|]. simpl.
  split; [|split].
  - rewrite map_map. simpl. apply map_id.
  - apply Forall_forall. intros sym Hsym. apply list_elem_of_fmap in Hsym as (p & -> & _).
    reflexivity.
  - intros sym w' Hsym. apply list_elem_of_fmap in Hsym as (p & -> & _).
    unfold TypeScriptSymbol_type. rewrite newTypeScriptType_eq. simpl.
    eexists _, _. split; [done|]. eexists. split; [done|]. simpl.
    apply lookup_insert_eq.
Qed.

Lemma members_of_host_properties_witness :
  exists st w1,
    members (sampleContext []) 0%nat oneInstance = (Return st, w1)
    /\ map tsSymbol (symbols st) = [1; 2]%nat.
Proof.
  destruct (members_of_host_properties (sampleContext []) 0%nat
              {| tsType := 9%nat; node := 7%nat;
                 _members := None; _callSignatures := None |}
              oneInstance eq_refl eq_refl) as (st & w1 & Hget & Hprops & _).
  by exists st, w1.
Defined.

(** The references a read of [callSignatures] hands out, one after the
    other. *)
Lemma mapM_new_exact {A} (f : A -> HostType) n (ps : list A) w :
  exists w',
    mapM (fun p => newTypeScriptType (f p) n) ps w
    = (Return (map Instance (seq (nextRef w) (length ps))), w')
    /\ nextRef w' = (nextRef w + length ps)%nat.
Proof.
  revert w. induction ps as [|p ps IH]; intros w.
  - exists w. simpl. split; [done|lia].
  - cbn [mapM]. unfold bind. rewrite newTypeScriptType_eq.
    match goal with |- context [mapM _ ps ?w1] => destruct (IH w1) as (w' & -> & Hn) end.
    exists w'. simpl in *. split; [done|lia].
Qed.

Lemma makeSignature_exact (context : TypeScriptContext) n s w :
  exists sig w',
    makeSignature context n s w = (Return sig, w')
    /\ argTypes sig ++ [returnType sig]
       = map Instance (seq (nextRef w) (S (length (getParameters context s))))
    /\ nextRef w' = (nextRef w + S (length (getParameters context s)))%nat.
Proof.
  unfold makeSignature, bind.
  destruct (mapM_new_exact (fun p => getTypeOfSymbolAtLocation context p n) n
              (getParameters context s) w) as (w1 & -> & Hn).
  rewrite newTypeScriptType_eq. eexists _, _. split; [done|]. simpl.
  split; [|lia]. rewrite Hn.
  change (Instance (nextRef w) :: map Instance (seq (S (nextRef w)) (length (getParameters context s))))
    with (map Instance (seq (nextRef w) (S (length (getParameters context s))))).
  by rewrite seq_S, map_app.
Qed.

Lemma mapM_makeSignature_exact (context : TypeScriptContext) n ss w :
  exists sigs w',
    mapM (makeSignature context n) ss w = (Return sigs, w')
    /\ (nextRef w <= nextRef w')%nat
    /\ instancesOf sigs = map Instance (seq (nextRef w) (nextRef w' - nextRef w)).
Proof.
  revert w. induction ss as [|s ss IH]; intros w.
  - exists [], w. simpl. split; [done|]. split; [lia|]. by rewrite Nat.sub_diag.
  - cbn [mapM]. unfold bind.
    destruct (makeSignature_exact context n s w) as (sig & w1 & -> & Hsig & Hn1).
    destruct (IH w1) as (sigs & w' & -> & Hle & Hsigs).
    exists (sig :: sigs), w'. split; [done|]. split; [lia|].
    cbn [instancesOf]. rewrite Hsig, Hsigs, Hn1, <- map_app, <- seq_app.
    f_equal. f_equal. lia.
Qed.

(** X7. The first read of [callSignatures] of an allocated instance mirrors
    the host's call signatures, in their order: each has one new instance
    per parameter, of the type the host resolves for that parameter at the
    anchor of the instance, and one new instance of the return type. The
    instances are new: their references are the ones handed out during the
    read, one after the other, parameters first and then the return type,
    signature after signature, so no two of them are the same object and
    none is the instance that is read or has a reference handed out before
    the read. *)
Theorem callSignatures_of_host_signatures (context : TypeScriptContext)
    (this : ref) (o : TypeScriptType) (w : World) :
  heap w !! this = Some o ->
  _callSignatures o = None ->
  (this < nextRef w)%nat ->
  exists a w1,
    callSignatures context this w = (Return a, w1)
    /\ Forall2 (signatureOf context w1 (node o))
               (items a) (getCallSignatures context (tsType o))
    /\ instancesOf (items a)
       = map Instance (seq (nextRef w) (arrayRef a - nextRef w))
    /\ (nextRef w <= arrayRef a)%nat
    /\ nextRef w1 = S (arrayRef a)
    /\ NoDup (instancesOf (items a))
    /\ (forall t,
          t ∈ instancesOf (items a) ->
          exists r : ref,
            t = Instance r /\ (nextRef w <= r < arrayRef a)%nat /\ r <> this).
Proof.
  intros Ho Hm Hlt. rewrite callSignatures_eq, Ho, Hm.
  destruct (mapM_allocates (makeSignature context (node o))
              (signatureWithin context (node o))
              (getCallSignatures context (tsType o)) w
              (signatureWithin_stable context (node o))
              (makeSignature_allocates context (node o)))
    as (sigs & w' & Hmap & _ & Hsigs).
  destruct (mapM_makeSignature_exact context (node o)
              (getCallSignatures context (tsType o)) w)
    as (sigs' & w'' & Hmap' & Hle & Hexact).
  rewrite Hmap in Hmap'. injection Hmap' as <- <-. rewrite Hmap.
  eexists _, _. split; [done|]. simpl.
  assert (Hkeep : forall t type,
            instanceWithin (nextRef w) (nextRef w') w' t type (node o) ->
            instanceOf
              {| heap := alter
                           (fun o0 => {| tsType := tsType o0; node := node o0;
                                         _members := _members o0;
                                         _callSignatures :=
                                           Some {| arrayRef := nextRef w'; items := sigs |} |})
                           this (heap w');
                 nextRef := S (nextRef w');
                 compiles := compiles w' |}
              t type (node o)).
  { intros t type (r & -> & Hr & Hheap). exists r. split; [done|]. simpl.
    rewrite lookup_alter_ne by lia. done. }
  split; [|split; [done|split; [done|split; [done|split]]]].
  - eapply Forall2_impl; [done|]. intros sig s [Hargs Hret]. split.
    + eapply Forall2_impl; [done|]. intros t p Ht. by apply Hkeep.
    + by apply Hkeep.
  - rewrite Hexact.
    assert (Hinj : Inj (=) (=) Instance) by (by intros ? ? [=]).
    apply (NoDup_fmap_2 Instance), NoDup_seq.
  - intros t. rewrite Hexact. intros Ht. apply list_elem_of_fmap in Ht as (r & -> & Hr).
    apply elem_of_seq in Hr. exists r. split; [done|]. lia.
Qed.

Lemma callSignatures_of_host_signatures_witness :
  exists a w1,
    callSignatures (sampleContext []) 0%nat oneInstance = (Return a, w1)
    /\ Forall2 (signatureOf (sampleContext []) w1 7%nat) (items a) [5]%nat
    /\ instancesOf (items a) = [Instance 1%nat; Instance 2%nat; Instance 3%nat].
Proof.
  destruct (callSignatures_of_host_signatures (sampleContext []) 0%nat
              {| tsType := 9%nat; node := 7%nat;
                 _members := None; _callSignatures := None |}
              oneInstance eq_refl eq_refl (Nat.lt_0_succ 0))
    as (a & w1 & Hcall & Hsigs & Hexact & _).
  exists a, w1. split; [done|]. split; [done|].
  rewrite Hexact. vm_compute in Hcall. injection Hcall as <- <-. reflexivity.
Defined.

(** ** The walk of the fixture *)
Section WalkFacts.

Variable context : TypeScriptContext.

Lemma dispatchAll_app ds1 ds2 s :
  dispatchAll context (ds1 ++ ds2) s =
    bind (dispatchAll context ds1) (fun _ => dispatchAll context ds2) s.
Proof.
  revert s. induction ds1 as [|[prop type] ds1 IH]; intros s; [done|].
  simpl. unfold bind.
  destruct (dispatch context prop type s) as [[[]|e] s1]; [|done].
  rewrite IH. reflexivity.
Qed.

Lemma declarations_declaration prop type children :
  declarations (VariableDeclaration prop type children) =
    (prop, type) :: declarationsOf children.
Proof. reflexivity. Qed.

Lemma declarations_other id children :
  declarations (OtherNode id children) = declarationsOf children.
Proof. reflexivity. Qed.

Lemma children_document_order children :
  Forall (fun c => forall s, search context c s = dispatchAll context (declarations c) s)
         children ->
  forall s, forEachChild context children s =
            dispatchAll context (declarationsOf children) s.
Proof.
  induction 1 as [|c children Hc _ IH]; intros s; [done|].
  simpl. rewrite dispatchAll_app. unfold bind. rewrite Hc.
  destruct (dispatchAll context (declarations c) s) as [[[]|e] s1]; [|done].
  apply IH.
Qed.

Lemma node_document_order n s :
  search context n s = dispatchAll context (declarations n) s.
Proof.
  revert s.
  induction n as [prop type children IH | id children IH] using Node_children_ind;
    intros s.
  - rewrite search_declaration, declarations_declaration. simpl. unfold bind.
    destruct (dispatch context prop type s) as [[[]|e] s1]; [|done].
    by apply children_document_order.
  - rewrite search_other, declarations_other. by apply children_document_order.
Qed.

Lemma forEachChild_document_order children s :
  forEachChild context children s = dispatchAll context (declarationsOf children) s.
Proof.
  apply children_document_order, Forall_forall. intros c _ s'.
  apply node_document_order.
Qed.

Lemma steady_dispatchAll ds : steady (dispatchAll context ds).
Proof.
  induction ds as [|[prop type] ds IH]; simpl; [apply steady_ret|].
  apply steady_bind; [apply steady_dispatch | by intros _].
Qed.

(** Dispatching an annotated declaration returns. *)
Lemma dispatchAll_cons_annotated prop text ds s :
  dispatchAll context ((prop, Some text) :: ds) s =
    dispatchAll context ds (dispatch context prop (Some text) s).2.
Proof.
  cbn [dispatchAll]. unfold bind.
  pose proof (runBodies_returns context prop (entered text cases) s) as Hret.
  change (runBodies context prop (entered text cases) s)
    with (dispatch context prop (Some text) s) in Hret.
  destruct (dispatch context prop (Some text) s) as [o s1].
  simpl in *. by subst o.
Qed.

Lemma dispatchAll_annotated ds s :
  annotated ds -> (dispatchAll context ds s).1 = Return tt.
Proof.
  intros Hall. revert s. induction Hall as [|[prop type] ds [text Htext] _ IH]; intros s.
  - done.
  - simpl in Htext. subst type. rewrite dispatchAll_cons_annotated. apply IH.
Qed.

Lemma dispatchAll_unannotated ds s :
  Exists (fun d => d.2 = None) ds -> (dispatchAll context ds s).1 = Throw TypeError.
Proof.
  intros Hex. revert s. induction Hex as [[prop type] ds Hnone|[prop type] ds _ IH];
    intros s.
  - simpl in Hnone. subst type. reflexivity.
  - destruct type as [text|]; [|reflexivity].
    rewrite dispatchAll_cons_annotated. apply IH.
Qed.

Lemma runBodies_other prop ks s k :
  k ∉ ks -> cache (runBodies context prop ks s).2.1 !! k = cache s.1 !! k.
Proof.
  revert s. induction ks as [|k' ks IH]; intros s Hk; [done|].
  rewrite runBodies_cons. apply not_elem_of_cons in Hk as [Hne Hk].
  rewrite IH, populate_eq by done. simpl. by rewrite lookup_insert_ne.
Qed.

Lemma runBodies_builds prop ks s k :
  k ∈ ks -> builtFrom context prop k (runBodies context prop ks s).2.
Proof.
  revert s. induction ks as [|k' ks IH]; intros s Hk.
  - by apply elem_of_nil in Hk.
  - rewrite runBodies_cons. destruct (decide (k ∈ ks)) as [Hin|Hout]; [by apply IH|].
    apply elem_of_cons in Hk as [->|Hk]; [|done].
    destruct (steady_runBodies context prop ks (populate context prop k' s).2)
      as (_ & (Hn & _ & Hheap) & _).
    exists (nextRef s.2). rewrite runBodies_other by done.
    rewrite populate_eq in *. simpl in *.
    split; [apply lookup_insert_eq|]. split; [lia|].
    rewrite Hheap by lia. apply lookup_insert_eq.
Qed.

(** After a run over annotated declarations, each kind holds what the last
    declaration providing it built, or what it held before. *)
Lemma dispatchAll_provider ds s k :
  annotated ds ->
  match provider k ds with
  | Some prop => builtFrom context prop k (dispatchAll context ds s).2
  | None => cache (dispatchAll context ds s).2.1 !! k = cache s.1 !! k
  end.
Proof.
  intros Hall. revert s. induction Hall as [|[prop type] ds [text Htext] _ IH]; intros s.
  - done.
  - simpl in Htext. subst type. rewrite dispatchAll_cons_annotated. cbn [provider].
    specialize (IH (dispatch context prop (Some text) s).2).
    destruct (provider k ds) as [p|]; [done|].
    change (provides k (prop, Some text)) with (bool_decide (k ∈ entered text cases)).
    change ((prop, Some text).1) with prop.
    case_bool_decide as Hk.
    + destruct (runBodies_builds prop (entered text cases) s k Hk) as (r & Hc & Hr & Hh).
      change (runBodies context prop (entered text cases) s)
        with (dispatch context prop (Some text) s) in *.
      destruct (steady_dispatchAll ds (dispatch context prop (Some text) s).2)
        as (_ & (Hn & _ & Hheap) & _).
      exists r. rewrite IH. split; [done|]. split; [lia|]. by rewrite Hheap.
    + rewrite IH. by apply runBodies_other.
Qed.

End WalkFacts.

Section LoadFacts.

Variable context : TypeScriptContext.

Lemma ensureLoad_document_order (s : State) :
  cached s.1 = false ->
  ensureLoadBuiltInTypes context s =
    dispatchAll context (declarationsOf (fixture context))
      ({| cached := true; cache := cache s.1 |},
       {| heap := heap s.2; nextRef := nextRef s.2; compiles := S (compiles s.2) |}).
Proof.
  intros Hfresh. rewrite ensureLoad_fresh by done. apply forEachChild_document_order.
Qed.

Lemma annotated_or_not ds : annotated ds \/ Exists (fun d => d.2 = None) ds.
Proof.
  induction ds as [|[prop [text|]] ds [IH|IH]].
  - left. constructor.
  - left. constructor; [by eexists|done].
  - right. by constructor 2.
  - right. by constructor 1.
  - right. by constructor 1.
Qed.

Lemma members_returns (r : ref) w :
  is_Some (heap w !! r) -> exists st w1, members context r w = (Return st, w1).
Proof.
  intros [o Ho]. rewrite members_eq, Ho. destruct (_members o); by eexists _, _.
Qed.

(** The invariant of the cache through the bodies of the switch. *)
Lemma keeps_ret {A} (a : A) : keeps (ret a).
Proof. by intros s. Qed.

Lemma keeps_throw {A} e : keeps (throw (A:=A) e).
Proof. by intros s. Qed.

Lemma keeps_bind {A B} (c : M State A) (k : A -> M State B) :
  keeps c -> (forall a, keeps (k a)) -> keeps (bind c k).
Proof.
  intros Hc Hk s Hs. unfold bind. specialize (Hc s Hs).
  destruct (c s) as [[a|e] s1]; [by apply Hk | done].
Qed.

Lemma keeps_populate prop k : scalar k -> keeps (populate context prop k).
Proof.
  intros Hk s [Hvalues Hinj]. rewrite populate_eq. split; simpl.
  - intros k' t. destruct (decide (k = k')) as [<-|Hne].
    + rewrite lookup_insert_eq. intros [= <-]. split; [done|].
      exists (nextRef s.2). split; [done|]. split; [lia|].
      rewrite lookup_insert_eq. by eexists.
    + rewrite lookup_insert_ne by done. intros Hget.
      destruct (Hvalues k' t Hget) as (Hk' & r & -> & Hr & Hheap).
      split; [done|]. exists r. split; [done|]. split; [lia|].
      rewrite lookup_insert_ne by lia. done.
  - intros k1 k2 t.
    destruct (decide (k = k1)) as [<-|Hne1], (decide (k = k2)) as [<-|Hne2]; [done|..].
    + rewrite lookup_insert_eq, lookup_insert_ne by done. intros [= <-] Hget.
      destruct (Hvalues _ _ Hget) as (_ & r & [= <-] & Hr & _). lia.
    + rewrite lookup_insert_eq, lookup_insert_ne by done. intros Hget [= <-].
      destruct (Hvalues _ _ Hget) as (_ & r & [= <-] & Hr & _). lia.
    + rewrite !lookup_insert_ne by done. apply Hinj.
Qed.

Lemma entered_scalar text k : k ∈ entered text cases -> scalar k.
Proof.
  unfold scalar. simpl.
  repeat (destruct (String.eqb text _)); intros Hk;
    repeat (apply elem_of_cons in Hk as [->|Hk]; [tauto|]);
    by apply elem_of_nil in Hk.
Qed.

Lemma keeps_runBodies prop ks :
  Forall scalar ks -> keeps (runBodies context prop ks).
Proof.
  induction 1 as [|k ks Hk _ IH]; simpl; [apply keeps_ret|].
  apply keeps_bind; [by apply keeps_populate | by intros _].
Qed.

Lemma keeps_dispatch prop type : keeps (dispatch context prop type).
Proof.
  destruct type as [text|]; [|apply keeps_throw].
  apply keeps_runBodies, Forall_forall. intros k. apply entered_scalar.
Qed.

Lemma keeps_dispatchAll ds : keeps (dispatchAll context ds).
Proof.
  induction ds as [|[prop type] ds IH]; simpl; [apply keeps_ret|].
  apply keeps_bind; [apply keeps_dispatch | by intros _].
Qed.

Lemma keeps_ensureLoad : keeps (ensureLoadBuiltInTypes context).
Proof.
  intros s Hs. destruct (cached s.1) eqn:Hc.
  - by rewrite ensureLoad_cached.
  - rewrite ensureLoad_document_order by done. by apply keeps_dispatchAll.
Qed.

Lemma keeps_getTypeByKind k : keeps (getTypeByKind context k).
Proof.
  intros s Hs. destruct (getTypeByKind_state context k s) as [->|[_ ->]]; [done|].
  by apply keeps_ensureLoad.
Qed.

Lemma keeps_calls ks s : cacheInvariant s -> cacheInvariant (calls context ks s).
Proof.
  revert s. induction ks as [|k ks IH]; intros s Hs; [done|].
  simpl. apply IH. by apply keeps_getTypeByKind.
Qed.

Lemma cacheInvariant_new w : cacheInvariant (createTypeRepository context, w).
Proof. split; intros ?; intros; simplify_map_eq. Qed.

(** Loading over an annotated fixture returns, whether or not the
    repository was loaded before; a first load throws nothing but a
    TypeError. *)
Lemma ensureLoad_annotated (s : State) :
  annotated (declarationsOf (fixture context)) ->
  (ensureLoadBuiltInTypes context s).1 = Return tt.
Proof.
  intros Hall. destruct (cached s.1) eqn:Hc.
  - by rewrite ensureLoad_cached.
  - rewrite ensureLoad_document_order by done. by apply dispatchAll_annotated.
Qed.

Lemma ensureLoad_throws (s : State) e :
  cached s.1 = false ->
  (ensureLoadBuiltInTypes context s).1 = Throw e -> e = TypeError.
Proof.
  intros Hfresh. rewrite ensureLoad_document_order by done.
  destruct (annotated_or_not (declarationsOf (fixture context))) as [H|H].
  - by rewrite dispatchAll_annotated.
  - rewrite dispatchAll_unannotated by done. by intros [= <-].
Qed.

(** A first request for a scalar kind over an annotated fixture: the
    instance of the last provider. *)
Lemma getTypeByKind_provider (s : State) k prop :
  cached s.1 = false ->
  annotated (declarationsOf (fixture context)) ->
  scalar k ->
  provider k (declarationsOf (fixture context)) = Some prop ->
  exists (r : ref) s1,
    getTypeByKind context k s = (Return (Instance r), s1)
    /\ s1 = (ensureLoadBuiltInTypes context s).2
    /\ cache s1.1 !! k = Some (Instance r)
    /\ heap s1.2 !! r = Some {| tsType := getTypeAtLocation context prop; node := prop;
                                _members := None; _callSignatures := None |}.
Proof.
  intros Hfresh Hall Hk Hprov. rewrite getTypeByKind_scalar by done.
  rewrite ensureLoad_document_order by done.
  match goal with |- context [dispatchAll _ _ ?s0] =>
    pose proof (dispatchAll_provider context _ s0 k Hall) as Hbuilt;
    pose proof (dispatchAll_annotated context _ s0 Hall) as Hret
  end.
  rewrite Hprov in Hbuilt. destruct Hbuilt as (r & Hc & _ & Hh).
  destruct (dispatchAll context _ _) as [o s1]. simpl in *. subst o.
  rewrite Hc. by exists r, s1.
Qed.

(** A declaration provides the kinds its switch enters. *)
Lemma provider_of_declaration k prop text ds :
  (prop, Some text) ∈ ds -> k ∈ entered text cases -> is_Some (provider k ds).
Proof.
  intros Hin Hk. induction ds as [|d ds IH]; [by apply elem_of_nil in Hin|].
  simpl. apply elem_of_cons in Hin as [<-|Hin].
  - destruct (provider k ds); [by eexists|].
    unfold provides. simpl. rewrite bool_decide_eq_true_2 by done. by eexists.
  - destruct (IH Hin) as [p ->]. by eexists.
Qed.

Lemma asDescribed_provider k :
  asDescribed context -> scalar k ->
  is_Some (provider k (declarationsOf (fixture context))).
Proof.
  intros [_ Hall] Hk.
  assert (Hlabel : exists text,
            text ∈ ["string"; "number"; "boolean"; "symbol"]
            /\ k ∈ entered text cases).
  { destruct Hk as [-> | [-> | [-> | ->]]];
      [exists "string"|exists "number"|exists "boolean"|exists "symbol"];
      split; simpl; repeat constructor. }
  destruct Hlabel as (text & Htext & Hentered).
  destruct (Hall text Htext) as [prop Hin].
  by eapply provider_of_declaration.
Qed.

(** With the fixture as described, a repository that has loaded answers. *)
Lemma answering_getTypeByKind k (s : State) :
  asDescribed context -> answering s -> answering (getTypeByKind context k s).2.
Proof.
  intros Hfix Hs. destruct (getTypeByKind_state context k s) as [->|[Hfresh ->]]; [done|].
  intros _ k' Hk'. destruct (asDescribed_provider k' Hfix Hk') as [prop Hprov].
  destruct (getTypeByKind_provider s k' prop Hfresh (proj1 Hfix) Hk' Hprov)
    as (r & s1 & _ & -> & Hc & _).
  by exists r.
Qed.

Lemma answering_calls ks (s : State) :
  asDescribed context -> answering s -> answering (calls context ks s).
Proof.
  intros Hfix. revert s. induction ks as [|k ks IH]; intros s Hs; [done|].
  simpl. apply IH. by apply answering_getTypeByKind.
Qed.

Lemma getTypeByKind_answers k (s : State) :
  asDescribed context -> answering s -> scalar k ->
  exists (r : ref) s1, getTypeByKind context k s = (Return (Instance r), s1).
Proof.
  intros Hfix Hs Hk. destruct (cached s.1) eqn:Hc.
  - destruct (Hs Hc k Hk) as [r Hr].
    rewrite getTypeByKind_scalar, ensureLoad_cached, Hr by done. by exists r, s.
  - destruct (asDescribed_provider k Hfix Hk) as [prop Hprov].
    destruct (getTypeByKind_provider s k prop Hc (proj1 Hfix) Hk Hprov)
      as (r & s1 & Hcall & _).
    by exists r, s1.
Qed.

End LoadFacts.

(** ** The contract of [getTypeByKind] *)

(** C8, amended. [getTypeByKind(Other)] fails at once in both repositories,
    in the host-backed one by the assertion and before anything is touched.
    Of the other kinds, the host-backed repository answers [Any], [Null] and
    [Undefined] with the singletons without loading. A request for a scalar
    kind loads and then answers with the cache entry, failing the assertion
    when there is none; with the fixture as described, a repository made by
    [createTypeRepository] answers every scalar kind, after any earlier
    calls, with an instance and does not fail. A request for [Object] or
    [Function] loads and then throws "Unexpected type kind", for certain
    when every declaration of the fixture is annotated; when loading itself
    throws, its exception is the one thrown. The stub answers [Number],
    [String], [Boolean], [Null], [Undefined] and [Any] and throws on
    [Symbol], [Object] and [Function]. *)
Theorem getTypeByKind_contract (context : TypeScriptContext) (s : State) :
  getTypeByKind context TypeKind.Other s = (Throw (AssertionError CannotSpecifyOther), s)
  /\ Stub.getTypeByKind TypeKind.Other = Throw (Error (UnknownTypeKind TypeKind.Other))
  /\ getTypeByKind context TypeKind.Any s = (Return anyType, s)
  /\ getTypeByKind context TypeKind.Null s = (Return nullType, s)
  /\ getTypeByKind context TypeKind.Undefined s = (Return undefinedType, s)
  /\ (forall k s',
        scalar k ->
        ensureLoadBuiltInTypes context s = (Return tt, s') ->
        getTypeByKind context k s =
          (match cache s'.1 !! k with
           | Some res => Return res
           | None => Throw (AssertionError (NotFound k))
           end, s'))
  /\ (asDescribed context ->
      forall ks w k,
        scalar k ->
        exists (r : ref) s1,
          getTypeByKind context k (calls context ks (createTypeRepository context, w))
          = (Return (Instance r), s1))
  /\ (forall k,
        k = TypeKind.Object \/ k = TypeKind.Function ->
        getTypeByKind context k s =
          match ensureLoadBuiltInTypes context s with
          | (Return _, s') => (Throw (Error (UnexpectedTypeKind k)), s')
          | (Throw e, s') => (Throw e, s')
          end)
  /\ (annotated (declarationsOf (fixture context)) ->
      forall k,
        k = TypeKind.Object \/ k = TypeKind.Function ->
        getTypeByKind context k s =
          (Throw (Error (UnexpectedTypeKind k)), (ensureLoadBuiltInTypes context s).2))
  /\ Stub.getTypeByKind TypeKind.Number = Return Stub.number
  /\ Stub.getTypeByKind TypeKind.String = Return Stub.string
  /\ Stub.getTypeByKind TypeKind.Boolean = Return Stub.boolean
  /\ Stub.getTypeByKind TypeKind.Null = Return Stub.nullType
  /\ Stub.getTypeByKind TypeKind.Undefined = Return Stub.undefinedType
  /\ Stub.getTypeByKind TypeKind.Any = Return Stub.anyType
  /\ (forall k,
        k = TypeKind.Symbol \/ k = TypeKind.Object \/ k = TypeKind.Function ->
        Stub.getTypeByKind k = Throw (Error (UnknownTypeKind k))).
Proof.
  repeat (split; [reflexivity|]). split; [|split; [|split; [|split]]].
  - intros k s' Hk Hload. rewrite getTypeByKind_scalar, Hload by done.
    by destruct (cache s'.1 !! k).
  - intros Hfix ks w k Hk. apply getTypeByKind_answers; [done| |done].
    apply answering_calls; [done|]. by intros [=].
  - intros k Hk. by apply getTypeByKind_unexpected.
  - intros Hall k Hk. rewrite getTypeByKind_unexpected by done.
    pose proof (ensureLoad_annotated context s Hall) as Hret.
    destruct (ensureLoadBuiltInTypes context s) as [[[]|e] s']; [done|discriminate].
  - repeat (split; [reflexivity|]). by intros k [-> | [-> | ->]].
Qed.

(** C8 amended, at the sample fixture: a repository that was first asked
    for [Function] and for [Any] answers [String] with an instance. *)
Lemma getTypeByKind_contract_witness :
  exists (r : ref) s1,
    getTypeByKind (sampleContext typeProvider) TypeKind.String
      (calls (sampleContext typeProvider) [TypeKind.Function; TypeKind.Any]
         (createTypeRepository (sampleContext typeProvider), emptyWorld))
    = (Return (Instance r), s1).
Proof.
  apply (proj1 (proj2 (proj2 (proj2 (proj2 (proj2 (proj2
           (getTypeByKind_contract (sampleContext typeProvider)
              (newRepository, emptyWorld)))))))));
    [|by left].
  split.
  - repeat constructor; by eexists.
  - intros text Htext.
    repeat (apply elem_of_cons in Htext as [->|Htext];
            [eexists; unfold typeProvider, declare; simpl;
             repeat (apply elem_of_cons; first [left; reflexivity | right]) |]).
    by apply elem_of_nil in Htext.
Defined.

(** ** Loading, as the callers of [getTypeByKind] see it *)

(** X8. The walk reaches every variable declaration of the fixture, those
    nested in other declarations too, and dispatches them in document
    order, stopping where a dispatch throws: [search], [ts.forEachChild]
    with [search] and a first [ensureLoadBuiltInTypes] are the inner switch
    run over the list of declarations. *)
Theorem search_document_order (context : TypeScriptContext) :
  (forall n s, search context n s = dispatchAll context (declarations n) s)
  /\ (forall children s,
        forEachChild context children s =
          dispatchAll context (declarationsOf children) s)
  /\ (forall s : State,
        cached s.1 = false ->
        ensureLoadBuiltInTypes context s =
          dispatchAll context (declarationsOf (fixture context))
            ({| cached := true; cache := cache s.1 |},
             {| heap := heap s.2; nextRef := nextRef s.2;
                compiles := S (compiles s.2) |})).
Proof.
  split; [apply node_document_order|].
  split; [apply forEachChild_document_order | apply ensureLoad_document_order].
Qed.

(** X8 at a declaration nested in the initializer of another one. *)
Lemma search_document_order_witness :
  let nested :=
    [ VariableDeclaration 1%nat (Some "symbol")
        [ OtherNode 2%nat [ VariableDeclaration 3%nat (Some "number") [] ] ] ] in
  ensureLoadBuiltInTypes (sampleContext nested) (newRepository, emptyWorld) =
    dispatchAll (sampleContext nested) [ (1%nat, Some "symbol"); (3%nat, Some "number") ]
      ({| cached := true; cache := ∅ |},
       {| heap := ∅; nextRef := 0%nat; compiles := 1%nat |}).
Proof.
  intros nested.
  apply (proj2 (proj2 (search_document_order (sampleContext nested)))
           (newRepository, emptyWorld)).
  reflexivity.
Defined.

(** X9. A first load returns when every declaration of the fixture has a
    type annotation and throws a TypeError when one has none; it throws
    nothing else. *)
Theorem loading_outcome (context : TypeScriptContext) (s : State) :
  cached s.1 = false ->
  (annotated (declarationsOf (fixture context)) ->
   (ensureLoadBuiltInTypes context s).1 = Return tt)
  /\ (Exists (fun d => d.2 = None) (declarationsOf (fixture context)) ->
      (ensureLoadBuiltInTypes context s).1 = Throw TypeError)
  /\ (forall e, (ensureLoadBuiltInTypes context s).1 = Throw e -> e = TypeError).
Proof.
  intros Hfresh. rewrite ensureLoad_document_order by done.
  split; [apply dispatchAll_annotated|]. split; [apply dispatchAll_unannotated|].
  intros e. destruct (annotated_or_not (declarationsOf (fixture context))) as [H|H].
  - by rewrite dispatchAll_annotated.
  - rewrite dispatchAll_unannotated by done. by intros [= <-].
Qed.

Lemma loading_outcome_witness :
  (ensureLoadBuiltInTypes
     (sampleContext [declare 10%nat "string"; VariableDeclaration 5%nat None []])
     (newRepository, emptyWorld)).1
  = Throw TypeError.
Proof.
  apply (proj1 (proj2 (loading_outcome
           (sampleContext [declare 10%nat "string"; VariableDeclaration 5%nat None []])
           (newRepository, emptyWorld) eq_refl))).
  simpl. constructor 2. by constructor 1.
Defined.

(** X10. After a first load over an annotated fixture, a scalar kind is
    answered with an instance built from the last declaration, in document
    order, whose switch runs the body of that kind, which need not be a
    declaration of that kind's own type: a [string] declaration after the
    [number] one takes over the Number entry. *)
Theorem getTypeByKind_last_provider (context : TypeScriptContext) (s : State)
    (k : TypeKind.t) (prop : HostNode) :
  cached s.1 = false ->
  annotated (declarationsOf (fixture context)) ->
  scalar k ->
  provider k (declarationsOf (fixture context)) = Some prop ->
  exists (r : ref) s1,
    getTypeByKind context k s = (Return (Instance r), s1)
    /\ heap s1.2 !! r = Some {| tsType := getTypeAtLocation context prop; node := prop;
                                _members := None; _callSignatures := None |}.
Proof.
  intros Hfresh Hall Hk Hprov.
  destruct (getTypeByKind_provider context s k prop Hfresh Hall Hk Hprov)
    as (r & s1 & Hcall & _ & _ & Hheap).
  by exists r, s1.
Qed.

(** X10 at a fixture that declares the [number] variable before the
    [string] one: Number is answered with the type of the declaration of
    the string, node 12. *)
Lemma getTypeByKind_last_provider_witness :
  exists (r : ref) s1,
    getTypeByKind (sampleContext [declare 20%nat "number"; declare 10%nat "string"])
      TypeKind.Number (newRepository, emptyWorld)
    = (Return (Instance r), s1)
    /\ heap s1.2 !! r = Some {| tsType := 12%nat; node := 12%nat;
                                _members := None; _callSignatures := None |}.
Proof.
  apply (getTypeByKind_last_provider
           (sampleContext [declare 20%nat "number"; declare 10%nat "string"])
           (newRepository, emptyWorld) TypeKind.Number 12%nat).
  - reflexivity.
  - repeat constructor; by eexists.
  - right. left. reflexivity.
  - reflexivity.
Defined.

(** X11. When no declaration of an annotated fixture provides a scalar
    kind and the cache has no entry for it, the first request for that
    kind loads and then fails the assertion that the type is found. *)
Theorem getTypeByKind_no_provider (context : TypeScriptContext) (s : State)
    (k : TypeKind.t) :
  cached s.1 = false ->
  annotated (declarationsOf (fixture context)) ->
  scalar k ->
  provider k (declarationsOf (fixture context)) = None ->
  cache s.1 !! k = None ->
  getTypeByKind context k s =
    (Throw (AssertionError (NotFound k)), (ensureLoadBuiltInTypes context s).2).
Proof.
  intros Hfresh Hall Hk Hprov Hnone. rewrite getTypeByKind_scalar by done.
  rewrite ensureLoad_document_order by done.
  match goal with |- context [dispatchAll _ _ ?s0] =>
    pose proof (dispatchAll_provider context _ s0 k Hall) as Hsame;
    pose proof (dispatchAll_annotated context _ s0 Hall) as Hret
  end.
  rewrite Hprov in Hsame. simpl in Hsame. rewrite Hnone in Hsame.
  destruct (dispatchAll context _ _) as [o s1]. simpl in *. subst o.
  by rewrite Hsame.
Qed.

(** X11 at a fixture that only declares a [symbol] variable: String is
    not found. *)
Lemma getTypeByKind_no_provider_witness :
  (getTypeByKind (sampleContext [declare 40%nat "symbol"]) TypeKind.String
     (newRepository, emptyWorld)).1
  = Throw (AssertionError (NotFound TypeKind.String)).
Proof.
  rewrite (getTypeByKind_no_provider (sampleContext [declare 40%nat "symbol"])
             (newRepository, emptyWorld) TypeKind.String).
  - reflexivity.
  - reflexivity.
  - repeat constructor; by eexists.
  - left. reflexivity.
  - reflexivity.
  - reflexivity.
Defined.

(** X12. A load that throws is never retried: the flag was set before the
    walk, so the request that loaded reports the TypeError, and from then
    on the state no longer changes and every request for a scalar kind is
    answered from what the interrupted walk left in the cache, with the
    cached type or with a failed assertion. *)
Theorem failed_load_is_final (context : TypeScriptContext) (s s1 : State)
    (e : Exception) :
  cached s.1 = false ->
  ensureLoadBuiltInTypes context s = (Throw e, s1) ->
  e = TypeError
  /\ cached s1.1 = true
  /\ (forall k, scalar k -> getTypeByKind context k s = (Throw TypeError, s1))
  /\ (forall ks, calls context ks s1 = s1)
  /\ (forall k,
        scalar k ->
        getTypeByKind context k s1 =
          (match cache s1.1 !! k with
           | Some t => Return t
           | None => Throw (AssertionError (NotFound k))
           end, s1)).
Proof.
  intros Hfresh Hload.
  assert (He : e = TypeError).
  { apply (ensureLoad_throws context s e Hfresh). by rewrite Hload. }
  subst e.
  assert (Hflag : cached s1.1 = true).
  { pose proof (ensureLoad_state context s) as [H _]. by rewrite Hload in H. }
  split; [done|]. split; [done|]. split; [|split].
  - intros k Hk. by rewrite getTypeByKind_scalar, Hload.
  - intros ks. by apply calls_cached.
  - intros k Hk. rewrite getTypeByKind_scalar, ensureLoad_cached by done.
    by destruct (cache s1.1 !! k).
Qed.

(** X12 at a fixture whose second declaration has no annotation: the
    first request for Symbol throws the TypeError, the second one is
    answered with what the first declaration left. *)
Lemma failed_load_is_final_witness :
  let context :=
    sampleContext [declare 10%nat "string"; VariableDeclaration 5%nat None []] in
  let s1 := (ensureLoadBuiltInTypes context (newRepository, emptyWorld)).2 in
  getTypeByKind context TypeKind.Symbol s1 = (Return (Instance 3%nat), s1).
Proof.
  intros context s1.
  apply (proj2 (proj2 (proj2 (proj2
           (failed_load_is_final context (newRepository, emptyWorld) s1 TypeError
              eq_refl eq_refl)))) TypeKind.Symbol).
  right. right. right. reflexivity.
Defined.



(** X14. Whatever is asked of a repository made by [createTypeRepository],
    and in whatever order, a scalar kind is only ever answered with an
    allocated [TypeScriptType] instance, never with one of the singletons;
    reading the members of that instance returns a table; and no other
    kind is cached with the same instance, even when both entries were
    built from one declaration. *)
Theorem scalar_answers_are_instances (context : TypeScriptContext)
    (ks : list TypeKind.t) (w : World) (k : TypeKind.t) (t : Type_) (s1 : State) :
  scalar k ->
  getTypeByKind context k (calls context ks (createTypeRepository context, w))
    = (Return t, s1) ->
  exists r : ref,
    t = Instance r
    /\ (exists st w2, members context r s1.2 = (Return st, w2))
    /\ (forall k', cache s1.1 !! k' = Some t -> k' = k).
Proof.
  intros Hk Hcall.
  destruct (getTypeByKind_returned context k t _ s1 Hk Hcall) as [_ Hget].
  assert (Hinv : cacheInvariant s1).
  { replace s1 with (getTypeByKind context k
                       (calls context ks (createTypeRepository context, w))).2
      by by rewrite Hcall.
    apply keeps_getTypeByKind, keeps_calls, cacheInvariant_new. }
  destruct Hinv as [Hvalues Hinj].
  destruct (Hvalues k t Hget) as (_ & r & -> & _ & Hheap).
  exists r. split; [done|]. split; [by apply members_returns|].
  intros k' Hget'. by apply (Hinj k' k (Instance r)).
Qed.

Lemma scalar_answers_are_instances_witness :
  exists r : ref,
    Instance 2%nat = Instance r
    /\ (exists st w2,
          members (sampleContext [declare 10%nat "string"]) r
            (getTypeByKind (sampleContext [declare 10%nat "string"]) TypeKind.Boolean
               (calls (sampleContext [declare 10%nat "string"])
                  [TypeKind.Object; TypeKind.Any]
                  (createTypeRepository (sampleContext [declare 10%nat "string"]),
                   emptyWorld))).2.2
          = (Return st, w2))
    /\ (forall k',
          cache (getTypeByKind (sampleContext [declare 10%nat "string"]) TypeKind.Boolean
                   (calls (sampleContext [declare 10%nat "string"])
                      [TypeKind.Object; TypeKind.Any]
                      (createTypeRepository (sampleContext [declare 10%nat "string"]),
                       emptyWorld))).2.1 !! k'
          = Some (Instance 2%nat) ->
          k' = TypeKind.Boolean).
Proof.
  apply (scalar_answers_are_instances (sampleContext [declare 10%nat "string"])
           [TypeKind.Object; TypeKind.Any] emptyWorld TypeKind.Boolean).
  - right. right. left. reflexivity.
  - vm_compute. reflexivity.
Defined.

(** X15. When the declarations of the fixture are a [string], a [number], a
    [boolean] and a [symbol] variable in this order, which is the order of
    the cases of the switch, every scalar kind is answered with an instance
    built from the declaration of its own type: each declaration overwrites
    what the ones before it let fall through. *)
Theorem getTypeByKind_in_case_order (context : TypeScriptContext) (s : State)
    (p1 p2 p3 p4 : HostNode) :
  cached s.1 = false ->
  declarationsOf (fixture context)
    = [ (p1, Some "string"); (p2, Some "number");
        (p3, Some "boolean"); (p4, Some "symbol") ] ->
  forall k prop,
    (k, prop) ∈ [ (TypeKind.String, p1); (TypeKind.Number, p2);
                  (TypeKind.Boolean, p3); (TypeKind.Symbol, p4) ] ->
    exists (r : ref) s1,
      getTypeByKind context k s = (Return (Instance r), s1)
      /\ heap s1.2 !! r = Some {| tsType := getTypeAtLocation context prop; node := prop;
                                  _members := None; _callSignatures := None |}.
Proof.
  intros Hfresh Hds k prop Hin.
  assert (Hall : annotated (declarationsOf (fixture context))).
  { rewrite Hds. repeat constructor; by eexists. }
  cut (exists (r : ref) s1,
         getTypeByKind context k s = (Return (Instance r), s1)
         /\ s1 = (ensureLoadBuiltInTypes context s).2
         /\ cache s1.1 !! k = Some (Instance r)
         /\ heap s1.2 !! r = Some {| tsType := getTypeAtLocation context prop; node := prop;
                                     _members := None; _callSignatures := None |}).
  { intros (r & s1 & Hcall & _ & _ & Hheap). by exists r, s1. }
  apply getTypeByKind_provider; try done.
  - repeat (apply elem_of_cons in Hin as [[= -> ->]|Hin]; [unfold scalar; tauto|]).
    by apply elem_of_nil in Hin.
  - rewrite Hds.
    repeat (apply elem_of_cons in Hin as [[= -> ->]|Hin]; [reflexivity|]).
    by apply elem_of_nil in Hin.
Qed.

(** X15 at the sample fixture: Number comes from the declaration of the
    number, node 22. *)
Lemma getTypeByKind_in_case_order_witness :
  exists (r : ref) s1,
    getTypeByKind (sampleContext typeProvider) TypeKind.Number (newRepository, emptyWorld)
    = (Return (Instance r), s1)
    /\ heap s1.2 !! r = Some {| tsType := 22%nat; node := 22%nat;
                                _members := None; _callSignatures := None |}.
Proof.
  apply (getTypeByKind_in_case_order (sampleContext typeProvider)
           (newRepository, emptyWorld) 12%nat 22%nat 32%nat 42%nat eq_refl eq_refl
           TypeKind.Number 22%nat).
  apply elem_of_cons. right. apply elem_of_cons. by left.
Defined.
